(** * Variable recovery: the base engine (angr/analyses/variable_recovery/engine_base.py)

    A shallow embedding of [RichR] and [SimEngineVRBase] and the properties
    of the engine's transfer functions: register write, memory store (global,
    stack, unknown pointer), memory load, register read, address-taken
    references and the per-block entry point.

    The engine is Python code that mutates an analysis state and calls into
    collaborators that live in other modules (the state's helpers, the region
    memories, the variable manager, the type-variable table).  The embedding
    keeps the mutable objects in an explicit state record, threads it through
    a state-and-exception monad, and takes the collaborators' query functions
    as the fields of a record [Collab], so every theorem holds for every
    implementation of them.  Logging calls are left out. *)

From Stdlib Require Import ZArith List String Bool Lia.
Import ListNotations.
Local Open Scope Z_scope.
Local Open Scope string_scope.
Local Open Scope list_scope.

Set Implicit Arguments.

(** ** Python values that occur in offset positions

    A stack offset, an offset into a variable or a region key is, in the
    source, [None], an [int], an [ArithmeticExpression(op, (a, b))], a tuple
    [(offset, mask)] or some other object. *)

Inductive arith_op := ArithAdd | ArithSub.

Inductive pyoff :=
| PNone
| PInt (n : Z)
| PObj (name : string)
| PArith (op : arith_op) (a b : pyoff)
| PTuple (a b : pyoff).

Definition arith_op_eq_dec (a b : arith_op) : {a = b} + {a <> b}.
Proof. decide equality. Defined.

Definition pyoff_eq_dec (a b : pyoff) : {a = b} + {a <> b}.
Proof.
  decide equality; auto using Z.eq_dec, string_dec, arith_op_eq_dec.
Defined.

(** [x is None] *)
Definition is_None (p : pyoff) : bool :=
  match p with PNone => true | _ => false end.

(** [isinstance(x, int)] and [type(x) is int] *)
Definition is_int (p : pyoff) : bool :=
  match p with PInt _ => true | _ => false end.

(** [x == 0]: only the integer zero equals 0. *)
Definition eq_zero (p : pyoff) : bool :=
  match p with PInt 0 => true | _ => false end.

(** [if x == 0: x = None] *)
Definition zero_to_None (p : pyoff) : pyoff :=
  if eq_zero p then PNone else p.

(** ** Variables (angr.sim_variable) and code locations *)

Inductive SimVariable :=
| SimStackVariable (offset : pyoff) (size : Z) (base : string)
                   (ident : string) (region : option Z)
| SimRegisterVariable (offset : Z) (size : Z) (ident : string)
                      (region : option Z)
| SimMemoryVariable (addr : Z) (size : Z) (ident : option string).

Definition var_size (v : SimVariable) : Z :=
  match v with
  | SimStackVariable _ sz _ _ _ => sz
  | SimRegisterVariable _ sz _ _ => sz
  | SimMemoryVariable _ sz _ => sz
  end.

Definition option_eq_dec (A : Type) (dec : forall a b : A, {a = b} + {a <> b})
  (x y : option A) : {x = y} + {x <> y}.
Proof. decide equality. Defined.

Definition SimVariable_eq_dec (a b : SimVariable) : {a = b} + {a <> b}.
Proof.
  decide equality;
    auto using Z.eq_dec, string_dec, pyoff_eq_dec, option_eq_dec.
Defined.

Record CodeLocation := mkCodeLocation {
  cl_block_addr : Z;
  cl_stmt_idx : Z;
  cl_ins_addr : Z
}.

(** ** Type variables and type constraints (typehoon.typevars) *)

Inductive Label :=
| AddN (n : Z)
| Load
| Store
| HasField (bits : Z) (offset : Z).

(** [TypeVariable()] draws its index from a counter; [int_type bits] is the
    type constant of [typeconsts.int_type]. *)
Inductive TypeVar :=
| TypeVariable (idx : nat)
| DerivedTypeVariable (type_var : TypeVar) (label : Label)
| int_type (bits : Z).

Inductive Constraint :=
| Subtype (sub_type super_type : TypeVar)
| Existence (type_ : TypeVar).

Definition is_Existence (c : Constraint) : bool :=
  match c with Existence _ => true | Subtype _ _ => false end.

(** ** Abstract values (claripy ASTs) with their variable annotations *)

Inductive AST :=
| BVV (value : Z) (bits : Z)
| BVS (name : string) (bits : Z)
| BinOp (op : string) (a b : AST).

Record Value := mkValue {
  ast : AST;
  annotations : list (pyoff * SimVariable)
}.

(** [addr.concrete] and [addr._model_concrete.value] *)
Definition concrete (v : Value) : bool :=
  match ast v with BVV _ _ => true | _ => false end.

Definition model_concrete_value (v : Value) : Z :=
  match ast v with BVV n _ => n | _ => 0 end.

(** A [MultiValues]: the dict from offset to the set of values, both in
    iteration order.  The object itself is true: [if values:] and
    [if not values:] ask whether there is an object or [None]. *)
Definition MultiValues := list (Z * list Value).

Definition mv_values (mv : MultiValues) : list (list Value) := map snd mv.

(** ** RichR *)

Record RichR := mkRichR {
  data : Value;
  variable : option SimVariable;
  typevar : option TypeVar;
  type_constraints : option (list Constraint)
}.

(** [RichR(data, variable=..., typevar=...)] *)
Definition RichR_ (d : Value) (v : option SimVariable) (tv : option TypeVar)
  : RichR := mkRichR d v tv None.

(** ** IR atoms: expressions and statements; only a statement has [endness] *)

Inductive Endness := Iend_LE | Iend_BE.

Inductive Atom :=
| AtomExpr (id : Z)
| AtomStmt (id : Z) (endness : Endness).

(** ** The mutable collaborators, as the history of the calls that change them

    A region memory is the list of the [store] calls made on it; a variable
    manager is the list of the calls made on it; the type-variable table is
    the list of the [add_type_variable] calls.  What their queries answer is
    a function of that history, given by [Collab] below. *)

Inductive StoreData :=
| SDValue (v : Value)
| SDMulti (mv : MultiValues).

Record StoreCall := mkStoreCall {
  sc_addr : pyoff;
  sc_data : StoreData;
  sc_endness : option Endness
}.

Definition Region := list StoreCall.

Inductive VMEvent :=
| EvNextVariableIdent (sort : string)
| EvAddVariable (sort : string) (key : pyoff) (v : SimVariable)
| EvSetVariable (sort : string) (key : pyoff) (v : SimVariable)
| EvWriteTo (v : SimVariable) (offset : pyoff) (loc : CodeLocation)
            (atom : option Atom)
| EvReadFrom (v : SimVariable) (offset : pyoff) (loc : CodeLocation)
             (atom : option Atom)
| EvReferenceAt (v : SimVariable) (offset : pyoff) (loc : CodeLocation)
                (atom : option Atom).

Definition VarManager := list VMEvent.

Definition TypeVariables := list (option SimVariable * CodeLocation * TypeVar).

(** ** The analysis state, with the two variable-manager catalogs the engine
    reaches through [self.variable_manager], the counter behind
    [TypeVariable()] and what [print] wrote. *)

Record State := mkState {
  stack_region : Region;
  register_region : Region;
  global_region : Region;
  typevars : TypeVariables;
  state_type_constraints : list Constraint;
  delayed_type_constraints : list (SimVariable * list Constraint);
  vm_function : VarManager;
  vm_global : VarManager;
  typevar_counter : nat;
  stdout : list pyoff
}.

(** ** Exceptions *)

Inductive exn :=
| SimEngineError (msg : string)
| SimMemoryMissingError
| StopIteration
| IndexError
| TypeError
| AttributeError
| UnboundLocalError.

Inductive Outcome (A : Type) :=
| Ok (a : A)
| Raise (e : exn).
Arguments Raise {A} e.

(** ** The state-and-exception monad: what a call returns or raises, and the
    state it leaves (a raise keeps the mutations made before it). *)

Definition M (A : Type) := State -> Outcome A * State.

Definition ret {A} (a : A) : M A := fun s => (Ok a, s).

Definition bind {A B} (m : M A) (k : A -> M B) : M B :=
  fun s => match m s with
           | (Ok a, s') => k a s'
           | (Raise e, s') => (Raise e, s')
           end.

Definition raise {A} (e : exn) : M A := fun s => (Raise e, s).

Definition lift {A} (o : Outcome A) : M A := fun s => (o, s).

Definition gets {A} (f : State -> A) : M A := fun s => (Ok (f s), s).

Definition modify (f : State -> State) : M unit := fun s => (Ok tt, f s).

Notation "x <- m ;; k" := (bind m (fun x => k))
  (at level 61, m at next level, right associativity).
Notation "m ;;; k" := (bind m (fun _ => k))
  (at level 61, right associativity).

(** [for x in l: body(x)] *)
Fixpoint for_ {A} (l : list A) (body : A -> M unit) : M unit :=
  match l with
  | [] => ret tt
  | x :: l' => body x ;;; for_ l' body
  end.

(** [if c: body] *)
Definition when (c : bool) (body : M unit) : M unit :=
  if c then body else ret tt.

(** ** State updates, one per field *)

Definition upd_stack_region (f : Region -> Region) (s : State) : State :=
  mkState (f (stack_region s)) (register_region s) (global_region s)
          (typevars s) (state_type_constraints s) (delayed_type_constraints s)
          (vm_function s) (vm_global s) (typevar_counter s) (stdout s).

Definition upd_register_region (f : Region -> Region) (s : State) : State :=
  mkState (stack_region s) (f (register_region s)) (global_region s)
          (typevars s) (state_type_constraints s) (delayed_type_constraints s)
          (vm_function s) (vm_global s) (typevar_counter s) (stdout s).

Definition upd_global_region (f : Region -> Region) (s : State) : State :=
  mkState (stack_region s) (register_region s) (f (global_region s))
          (typevars s) (state_type_constraints s) (delayed_type_constraints s)
          (vm_function s) (vm_global s) (typevar_counter s) (stdout s).

Definition upd_typevars (f : TypeVariables -> TypeVariables) (s : State)
  : State :=
  mkState (stack_region s) (register_region s) (global_region s)
          (f (typevars s)) (state_type_constraints s)
          (delayed_type_constraints s)
          (vm_function s) (vm_global s) (typevar_counter s) (stdout s).

Definition upd_type_constraints (f : list Constraint -> list Constraint)
  (s : State) : State :=
  mkState (stack_region s) (register_region s) (global_region s)
          (typevars s) (f (state_type_constraints s))
          (delayed_type_constraints s)
          (vm_function s) (vm_global s) (typevar_counter s) (stdout s).

Definition upd_delayed
  (f : list (SimVariable * list Constraint) ->
       list (SimVariable * list Constraint)) (s : State) : State :=
  mkState (stack_region s) (register_region s) (global_region s)
          (typevars s) (state_type_constraints s)
          (f (delayed_type_constraints s))
          (vm_function s) (vm_global s) (typevar_counter s) (stdout s).

Definition upd_vm_function (f : VarManager -> VarManager) (s : State)
  : State :=
  mkState (stack_region s) (register_region s) (global_region s)
          (typevars s) (state_type_constraints s) (delayed_type_constraints s)
          (f (vm_function s)) (vm_global s) (typevar_counter s) (stdout s).

Definition upd_vm_global (f : VarManager -> VarManager) (s : State) : State :=
  mkState (stack_region s) (register_region s) (global_region s)
          (typevars s) (state_type_constraints s) (delayed_type_constraints s)
          (vm_function s) (f (vm_global s)) (typevar_counter s) (stdout s).

Definition upd_typevar_counter (f : nat -> nat) (s : State) : State :=
  mkState (stack_region s) (register_region s) (global_region s)
          (typevars s) (state_type_constraints s) (delayed_type_constraints s)
          (vm_function s) (vm_global s) (f (typevar_counter s)) (stdout s).

Definition upd_stdout (f : list pyoff -> list pyoff) (s : State) : State :=
  mkState (stack_region s) (register_region s) (global_region s)
          (typevars s) (state_type_constraints s) (delayed_type_constraints s)
          (vm_function s) (vm_global s) (typevar_counter s) (f (stdout s)).

Inductive RegionName := StackRegion | RegisterRegion | GlobalRegion.

Definition get_region (r : RegionName) (s : State) : Region :=
  match r with
  | StackRegion => stack_region s
  | RegisterRegion => register_region s
  | GlobalRegion => global_region s
  end.

Definition upd_region (r : RegionName) : (Region -> Region) -> State -> State :=
  match r with
  | StackRegion => upd_stack_region
  | RegisterRegion => upd_register_region
  | GlobalRegion => upd_global_region
  end.

(** [self.variable_manager[self.func_addr]] and
    [self.variable_manager['global']] *)
Inductive Catalog := FunctionCatalog | GlobalCatalog.

Definition get_vm (c : Catalog) (s : State) : VarManager :=
  match c with
  | FunctionCatalog => vm_function s
  | GlobalCatalog => vm_global s
  end.

Definition upd_vm (c : Catalog)
  : (VarManager -> VarManager) -> State -> State :=
  match c with
  | FunctionCatalog => upd_vm_function
  | GlobalCatalog => upd_vm_global
  end.

(** ** Delayed type constraints: the dict from variable to its constraints *)

Fixpoint delayed_lookup (d : list (SimVariable * list Constraint))
  (v : SimVariable) : option (list Constraint) :=
  match d with
  | [] => None
  | (k, cs) :: d' =>
      if SimVariable_eq_dec k v then Some cs else delayed_lookup d' v
  end.

Fixpoint delayed_pop (d : list (SimVariable * list Constraint))
  (v : SimVariable) : list (SimVariable * list Constraint) :=
  match d with
  | [] => []
  | (k, cs) :: d' =>
      if SimVariable_eq_dec k v then delayed_pop d' v
      else (k, cs) :: delayed_pop d' v
  end.

(** ** Architecture facts and the engine's own fields *)

Record Arch := mkArch {
  byte_width : Z;
  sp_offset : Z;
  bp_offset : Z;
  memory_endness : Endness;
  is_artificial_register : Z -> Z -> bool
}.

Record Engine := mkEngine {
  arch : Arch;
  func_addr : option Z;
  block_addr : Z;
  stmt_idx : Z;
  ins_addr : Z
}.

(** ** The collaborators' queries

    None of these is defined in engine_base.py.  The state's helpers work on
    values; a region's [load] answers from the stores made so far ([None]
    stands for [SimMemoryMissingError]); the variable manager's and the
    type-variable table's lookups answer from the calls made so far.
    [set_iter] and [set_iter_var] give the iteration order of the Python set
    built by adding the elements of a list one after the other;
    [arith_sub] is [a - b] when an operand is not an [int]. *)

Record Collab := mkCollab {
  is_stack_address : Value -> bool;
  get_stack_offset : Value -> pyoff;
  stack_addr_from_offset : pyoff -> option pyoff -> Outcome pyoff;
  top : Z -> Value;
  annotate_with_variables : Value -> list (pyoff * SimVariable) -> Value;
  extract_variables : Value -> list (pyoff * SimVariable);
  region_load : Region -> pyoff -> Z -> option Endness -> option MultiValues;
  find_variables_by_stmt :
    VarManager -> Z -> Z -> string -> list (SimVariable * pyoff);
  find_variables_by_atom :
    VarManager -> Z -> Z -> option Atom -> list (SimVariable * pyoff);
  next_variable_ident : VarManager -> string -> string;
  get_global_variables : VarManager -> Z -> list SimVariable;
  has_type_variable_for : TypeVariables -> SimVariable -> CodeLocation -> bool;
  get_type_variable :
    TypeVariables -> SimVariable -> CodeLocation -> option TypeVar;
  typevars_contains : TypeVariables -> SimVariable -> bool;
  typevars_getitem : TypeVariables -> SimVariable -> TypeVar;
  arith_sub : pyoff -> pyoff -> Outcome pyoff;
  set_iter : list (pyoff * SimVariable) -> list (pyoff * SimVariable);
  set_iter_var : list SimVariable -> list SimVariable;
  set_iter_In : forall l x, In x (set_iter l) <-> In x l;
  set_iter_var_In : forall l x, In x (set_iter_var l) <-> In x l
}.

Section Engine.

Variable E : Collab.
Variable self : Engine.

(** *** Primitive calls *)

Definition region_store (r : RegionName) (addr : pyoff) (d : StoreData)
  (endness : option Endness) : M unit :=
  modify (upd_region r (fun log => log ++ [mkStoreCall addr d endness])).

Definition region_load_opt (r : RegionName) (addr : pyoff) (size : Z)
  (endness : option Endness) : M (option MultiValues) :=
  gets (fun s => region_load E (get_region r s) addr size endness).

Definition vm_call (c : Catalog) (ev : VMEvent) : M unit :=
  modify (upd_vm c (fun log => log ++ [ev])).

Definition vm_next_variable_ident (c : Catalog) (sort : string) : M string :=
  fun s => (Ok (next_variable_ident E (get_vm c s) sort),
            upd_vm c (fun log => log ++ [EvNextVariableIdent sort]) s).

Definition new_TypeVariable : M TypeVar :=
  fun s => (Ok (TypeVariable (typevar_counter s)), upd_typevar_counter S s).

Definition add_type_variable (v : option SimVariable) (loc : CodeLocation)
  (tv : TypeVar) : M unit :=
  modify (upd_typevars (fun log => log ++ [(v, loc, tv)])).

Definition add_type_constraint (c : Constraint) : M unit :=
  modify (upd_type_constraints (fun cs => cs ++ [c])).

Definition print (x : pyoff) : M unit :=
  modify (upd_stdout (fun out => out ++ [x])).

(** [self._codeloc()] and [CodeLocation(self.block.addr, self.stmt_idx,
    ins_addr=self.ins_addr)] *)
Definition _codeloc : CodeLocation :=
  mkCodeLocation (block_addr self) (stmt_idx self) (ins_addr self).

(** [a - b] *)
Definition py_sub (a b : pyoff) : Outcome pyoff :=
  match a, b with
  | PInt x, PInt y => Ok (PInt (x - y))
  | _, _ => arith_sub E a b
  end.

(** [stmt.endness] *)
Definition stmt_endness (stmt : Atom) : Outcome Endness :=
  match stmt with
  | AtomStmt _ e => Ok e
  | AtomExpr _ => Raise AttributeError
  end.

(** The pairs [extract_variables] yields over all values of a MultiValues:
    [for values in vs.values.values(): for v in values:
       for off, var in extract_variables(v)] *)
Definition extract_all (vs : MultiValues) : list (pyoff * SimVariable) :=
  flat_map (fun values => flat_map (extract_variables E) values)
           (mv_values vs).

Definition swap_pair (p : pyoff * SimVariable) : SimVariable * pyoff :=
  (snd p, fst p).

(** [for tc in richr.type_constraints: add_type_constraint(tc)] under
    [if richr.type_constraints:] *)
Definition add_riding_constraints (richr : RichR) : M unit :=
  match type_constraints richr with
  | Some tcs => for_ tcs add_type_constraint
  | None => ret tt
  end.

(** The delayed constraints of [var] are added and its entry is popped. *)
Definition flush_delayed (var : SimVariable) : M unit :=
  d <- gets delayed_type_constraints ;;
  match delayed_lookup d var with
  | Some cs =>
      for_ cs add_type_constraint ;;;
      modify (upd_delayed (fun d => delayed_pop d var))
  | None => ret tt
  end.

(** *** SimEngineVRBase._reference (lines 84-152)

    The list that [find_variables_by_stmt] returns is extended in place by
    [existing_vars.append]; it is taken to be a list of the caller's own. *)

Definition reference_at_all (stack_offset : pyoff)
  (existing_vars : list (SimVariable * pyoff)) (codeloc : CodeLocation)
  (src : option Atom) : M unit :=
  for_ existing_vars (fun '(var, offset) =>
    let offset := if is_None offset then PInt 0 else offset in
    offset_into_var <-
      (if is_None stack_offset then ret PNone
       else lift (py_sub stack_offset offset)) ;;
    vm_call FunctionCatalog
      (EvReferenceAt var (zero_to_None offset_into_var) codeloc src)).

Definition _reference (richr : RichR) (codeloc : CodeLocation)
  (src : option Atom) : M unit :=
  let data_ := data richr in
  if is_stack_address E data_ then
    let stack_offset := get_stack_offset E data_ in
    existing_vars <-
      gets (fun s => find_variables_by_stmt E (vm_function s)
                       (block_addr self) (stmt_idx self) "memory") ;;
    let variable0 := option_map fst (hd_error existing_vars) in
    r <-
      (if is_None stack_offset then ret (variable0, existing_vars)
       else
         stack_addr <- lift (stack_addr_from_offset E stack_offset None) ;;
         r1 <-
           match variable0 with
           | None =>
               vs <- region_load_opt StackRegion stack_addr 1 None ;;
               let existing_vars :=
                 existing_vars ++
                 match vs with
                 | Some m => map swap_pair (extract_all m)
                 | None => []
                 end in
               match existing_vars with
               | [] =>
                   ident <- vm_next_variable_ident FunctionCatalog "stack" ;;
                   let variable_ :=
                     SimStackVariable stack_offset 1 "bp" ident
                                      (func_addr self) in
                   vm_call FunctionCatalog
                     (EvAddVariable "stack" stack_offset variable_) ;;;
                   ret (variable_, [(variable_, PInt 0)], vs)
               | (v, _) :: _ => ret (v, existing_vars, vs)
               end
           | Some v => ret (v, existing_vars, None)
           end ;;
         let '(variable_, existing_vars, vs) := r1 in
         let vs :=
           match vs with
           | Some m => m
           | None =>
               let top_ := top E (byte_width (arch self)) in
               let top_ :=
                 annotate_with_variables E top_ [(PInt 0, variable_)] in
               [(0, [top_])]
           end in
         region_store StackRegion stack_addr (SDMulti vs) None ;;;
         ret (Some variable_, existing_vars)) ;;
    let '(variable_, existing_vars) := r in
    typevar_ <-
      match typevar richr with
      | None => new_TypeVariable
      | Some tv => ret tv
      end ;;
    add_type_variable variable_ codeloc typevar_ ;;;
    reference_at_all stack_offset existing_vars codeloc src
  else ret tt.

(** *** SimEngineVRBase._assign_to_register (lines 154-196) *)

Definition _assign_to_register (offset : Z) (richr : RichR) (size : Z)
  (src dst : option Atom) : M unit :=
  let codeloc := _codeloc in
  let data_ := data richr in
  _reference richr codeloc src ;;;
  existing_vars <-
    gets (fun s => find_variables_by_atom E (vm_function s)
                     (block_addr self) (stmt_idx self) dst) ;;
  variable_ <-
    match existing_vars with
    | [] =>
        ident <- vm_next_variable_ident FunctionCatalog "register" ;;
        let variable_ :=
          SimRegisterVariable offset size ident (func_addr self) in
        vm_call FunctionCatalog
          (EvSetVariable "register" (PInt offset) variable_) ;;;
        ret variable_
    | (v, _) :: _ => ret v
    end ;;
  let annotated_data :=
    annotate_with_variables E data_ [(PInt 0, variable_)] in
  let v := [(0, [annotated_data])] in
  region_store RegisterRegion (PInt offset) (SDMulti v) None ;;;
  vm_call FunctionCatalog (EvWriteTo variable_ PNone codeloc dst) ;;;
  if negb (is_artificial_register (arch self) offset size) then
    match typevar richr with
    | Some richr_typevar =>
        has <- gets (fun s => has_type_variable_for E (typevars s)
                                variable_ codeloc) ;;
        if negb has then
          typevar_ <- new_TypeVariable ;;
          add_type_variable (Some variable_) codeloc typevar_ ;;;
          add_type_constraint (Subtype richr_typevar typevar_) ;;;
          add_type_constraint
            (Subtype typevar_ (int_type (var_size variable_ * 8)))
        else ret tt
    | None => ret tt
    end
  else ret tt.

(** The [existing_vars] lookup shared by the stack and the global store. *)
Definition find_existing_vars (c : Catalog) (stmt : option Atom)
  : M (list (SimVariable * pyoff)) :=
  match stmt with
  | None =>
      gets (fun s => find_variables_by_stmt E (get_vm c s)
                       (block_addr self) (stmt_idx self) "memory")
  | Some _ =>
      gets (fun s => find_variables_by_atom E (get_vm c s)
                       (block_addr self) (stmt_idx self) stmt)
  end.

(** The "create type constraints" block shared by the stack and the global
    store (lines 277-286 and 322-331). *)
Definition store_type_constraints (data_ : RichR) (variable_ : SimVariable)
  (codeloc : CodeLocation) : M unit :=
  match typevar data_ with
  | Some data_typevar =>
      has <- gets (fun s => has_type_variable_for E (typevars s)
                              variable_ codeloc) ;;
      typevar_ <-
        (if negb has then
           tv <- new_TypeVariable ;;
           add_type_variable (Some variable_) codeloc tv ;;;
           ret (Some tv)
         else
           gets (fun s => get_type_variable E (typevars s)
                            variable_ codeloc)) ;;
      match typevar_ with
      | Some tv => add_type_constraint (Subtype data_typevar tv)
      | None => ret tt
      end
  | None => ret tt
  end.

(** *** SimEngineVRBase._store_to_stack (lines 225-287) *)

Definition _store_to_stack (stack_offset : pyoff) (data_ : RichR) (size : Z)
  (stmt : option Atom) (endness : option Endness) : M unit :=
  existing_vars <- find_existing_vars FunctionCatalog stmt ;;
  r <-
    match existing_vars with
    | [] =>
        ident <- vm_next_variable_ident FunctionCatalog "stack" ;;
        let variable_ :=
          SimStackVariable stack_offset size "bp" ident (func_addr self) in
        when (is_int stack_offset)
          (vm_call FunctionCatalog
             (EvSetVariable "stack" stack_offset variable_)) ;;;
        ret (variable_, PInt 0)
    | (v, o) :: _ => ret (v, o)
    end ;;
  let '(variable_, variable_offset) := r in
  if is_int stack_offset then
    let expr :=
      annotate_with_variables E (data data_)
        [(variable_offset, variable_)] in
    stack_addr <- lift (stack_addr_from_offset E stack_offset None) ;;
    region_store StackRegion stack_addr (SDValue expr) endness ;;;
    let codeloc := _codeloc in
    vs <- region_load_opt StackRegion stack_addr size endness ;;
    let addr_and_variables :=
      set_iter E match vs with
                 | Some m => extract_all m
                 | None => []
                 end in
    for_ addr_and_variables (fun '(var_offset, var) =>
      vm_call FunctionCatalog
        (EvWriteTo var (zero_to_None var_offset) codeloc stmt)) ;;;
    store_type_constraints data_ variable_ codeloc
  else ret tt.

(** *** SimEngineVRBase._store_to_global (lines 289-331) *)

Definition global_endness (stmt : option Atom) : Outcome Endness :=
  match stmt with
  | None => Ok (memory_endness (arch self))
  | Some st => stmt_endness st
  end.

Definition _store_to_global (addr : Z) (data_ : RichR) (size : Z)
  (stmt : option Atom) : M unit :=
  existing_vars <- find_existing_vars GlobalCatalog stmt ;;
  variable_ <-
    match existing_vars with
    | [] =>
        ident <- vm_next_variable_ident GlobalCatalog "global" ;;
        let variable_ := SimMemoryVariable addr size (Some ident) in
        vm_call GlobalCatalog
          (EvSetVariable "global" (PInt addr) variable_) ;;;
        ret variable_
    | (v, _) :: _ => ret v
    end ;;
  let data_expr :=
    annotate_with_variables E (data data_) [(PInt 0, variable_)] in
  endness <- lift (global_endness stmt) ;;
  region_store GlobalRegion (PInt addr) (SDValue data_expr)
               (Some endness) ;;;
  let codeloc := _codeloc in
  endness <- lift (global_endness stmt) ;;
  loaded <- region_load_opt GlobalRegion (PInt addr) size (Some endness) ;;
  match loaded with
  | None => raise SimMemoryMissingError
  | Some values =>
      for_ (extract_all values) (fun '(var_offset, var) =>
        vm_call GlobalCatalog (EvWriteTo var var_offset codeloc stmt)) ;;;
      store_type_constraints data_ variable_ codeloc
  end.

(** *** SimEngineVRBase._store_to_variable (lines 333-365) *)

Definition split_AddN (tv : TypeVar) : TypeVar * Z :=
  match tv with
  | DerivedTypeVariable base (AddN n) => (base, n)
  | _ => (tv, 0)
  end.

Definition _store_to_variable (richr_addr : RichR) (size : Z)
  (stmt : option Atom) : M unit :=
  let addr_variable := variable richr_addr in
  let codeloc := _codeloc in
  add_riding_constraints richr_addr ;;;
  typevar_ <-
    match typevar richr_addr with
    | None => new_TypeVariable
    | Some tv => ret tv
    end ;;
  let '(base_typevar, field_offset) := split_AddN typevar_ in
  let store_typevar :=
    DerivedTypeVariable
      (DerivedTypeVariable base_typevar Store)
      (HasField (size * byte_width (arch self)) field_offset) in
  match addr_variable with
  | Some v => add_type_variable (Some v) codeloc typevar_
  | None => ret tt
  end ;;;
  add_type_constraint (Existence store_typevar).

(** *** SimEngineVRBase._store (lines 198-223) *)

Definition _store (richr_addr : RichR) (data_ : RichR) (size : Z)
  (stmt : option Atom) : M unit :=
  let addr := data richr_addr in
  stored <-
    (if concrete addr then
       _store_to_global (model_concrete_value addr) data_ size stmt ;;;
       ret true
     else if is_stack_address E addr then
       let stack_offset := get_stack_offset E addr in
       if negb (is_None stack_offset) then
         _store_to_stack stack_offset data_ size stmt None ;;;
         ret true
       else ret false
     else ret false) ;;
  if negb stored then _store_to_variable richr_addr size stmt
  else ret tt.

(** *** SimEngineVRBase._load (lines 367-522) *)

(** Lines 387-408: the offset and the mask of a tuple, then the split of the
    stack offset into a concrete and a dynamic part. *)
Definition unpack_potential_offset (potential_offset : pyoff)
  : pyoff * pyoff :=
  match potential_offset with
  | PTuple o m => (o, m)
  | _ => (potential_offset, PNone)
  end.

Definition split_stack_offset (stack_offset : pyoff) : pyoff * pyoff :=
  match stack_offset with
  | PArith _ a b =>
      if is_int a then (a, b)
      else if is_int b then (b, a)
      else (PNone, stack_offset)
  | _ => (stack_offset, PNone)
  end.

(** Lines 410-417: the address computation and the load are both inside the
    [try]; only [SimMemoryMissingError] is caught. *)
Definition load_stack_values (concrete_offset custom_mask : pyoff) (size : Z)
  : M (option MultiValues) :=
  match stack_addr_from_offset E concrete_offset (Some custom_mask) with
  | Ok stack_addr =>
      region_load_opt StackRegion stack_addr size
                      (Some (memory_endness (arch self)))
  | Raise SimMemoryMissingError => ret None
  | Raise e => raise e
  end.

(** Lines 419-440: the set of the variables found, or a new variable. *)
Definition load_all_vars (values : option MultiValues)
  (concrete_offset : pyoff) (size : Z) : M (list (pyoff * SimVariable)) :=
  let all_vars :=
    set_iter E match values with
               | Some m => extract_all m
               | None => []
               end in
  match all_vars with
  | [] =>
      ident <- vm_next_variable_ident FunctionCatalog "stack" ;;
      let variable_ :=
        SimStackVariable concrete_offset size "bp" ident (func_addr self) in
      let v := top E (size * byte_width (arch self)) in
      let v := annotate_with_variables E v [(PInt 0, variable_)] in
      region_store StackRegion concrete_offset (SDValue v)
                   (Some (memory_endness (arch self))) ;;;
      vm_call FunctionCatalog
        (EvAddVariable "stack" concrete_offset variable_) ;;;
      ret [(PInt 0, variable_)]
  | _ => ret all_vars
  end.

(** Lines 449-457 *)
Definition offset_into_variable (dynamic_offset var_offset : pyoff) : pyoff :=
  if is_None dynamic_offset then PNone
  else if eq_zero var_offset then dynamic_offset
       else PArith ArithAdd dynamic_offset var_offset.

(** Lines 472-476: bind a fresh type variable or reuse the one there is. *)
Definition load_typevar (var : SimVariable) (codeloc : CodeLocation)
  : M (option TypeVar) :=
  has <- gets (fun s => has_type_variable_for E (typevars s) var codeloc) ;;
  if negb has then
    tv <- new_TypeVariable ;;
    add_type_variable (Some var) codeloc tv ;;;
    ret (Some tv)
  else gets (fun s => get_type_variable E (typevars s) var codeloc).

(** Lines 381-485: the stack path, for a stack offset that is not [None]. *)
Definition _load_stack (potential_offset : pyoff) (size : Z)
  (expr : option Atom) : M RichR :=
  let codeloc := _codeloc in
  let '(stack_offset, custom_mask) :=
    unpack_potential_offset potential_offset in
  match potential_offset with
  | PTuple _ _ => print custom_mask
  | _ => ret tt
  end ;;;
  let '(concrete_offset, dynamic_offset) := split_stack_offset stack_offset in
  values <- load_stack_values concrete_offset custom_mask size ;;
  all_vars <- load_all_vars values concrete_offset size ;;
  match all_vars with
  | [] => raise UnboundLocalError
  | (var_offset, var) :: _ =>
      vm_call FunctionCatalog
        (EvReadFrom var (offset_into_variable dynamic_offset var_offset)
                    codeloc expr) ;;;
      flush_delayed var ;;;
      typevar_ <- load_typevar var codeloc ;;
      let r := top E (size * byte_width (arch self)) in
      let r := annotate_with_variables E r all_vars in
      ret (RichR_ r (Some var) typevar_)
  end.

(** Lines 487-497: a concrete address that is not a stack address. *)
Definition _load_global (addr_v : Z) (size : Z) (expr : option Atom)
  : M unit :=
  let codeloc := _codeloc in
  variables <- gets (fun s => get_global_variables E (vm_global s) addr_v) ;;
  variables <-
    match variables with
    | [] =>
        let var := SimMemoryVariable addr_v size None in
        vm_call GlobalCatalog (EvAddVariable "global" (PInt addr_v) var) ;;;
        ret [var]
    | _ => ret variables
    end ;;
  for_ variables (fun var =>
    vm_call GlobalCatalog (EvReadFrom var (PInt 0) codeloc expr)).

(** Lines 499-522: loading data from a pointer. *)
Definition _load_pointer (richr_addr : RichR) (size : Z) : M RichR :=
  add_riding_constraints richr_addr ;;;
  let '(richr_addr_typevar, offset) :=
    match typevar richr_addr with
    | Some (DerivedTypeVariable base (AddN n)) => (Some base, n)
    | tv => (tv, 0)
    end in
  match richr_addr_typevar with
  | Some tv =>
      let typevar_ :=
        DerivedTypeVariable
          (DerivedTypeVariable tv Load)
          (HasField (size * byte_width (arch self)) offset) in
      add_type_constraint (Existence typevar_) ;;;
      ret (RichR_ (top E (size * byte_width (arch self))) None
                  (Some typevar_))
  | None =>
      ret (RichR_ (top E (size * byte_width (arch self))) None None)
  end.

Definition _load (richr_addr : RichR) (size : Z) (expr : option Atom)
  : M RichR :=
  let addr := data richr_addr in
  if is_stack_address E addr then
    let potential_offset := get_stack_offset E addr in
    if negb (is_None potential_offset) then
      _load_stack potential_offset size expr
    else _load_pointer richr_addr size
  else if concrete addr then
    _load_global (model_concrete_value addr) size expr ;;;
    _load_pointer richr_addr size
  else _load_pointer richr_addr size.

(** *** SimEngineVRBase._read_from_register (lines 524-584)

    A [MultiValues] object is true ([if not values:] asks whether the load
    raised). *)

(** Lines 576-582 *)
Definition register_typevar (var : SimVariable) (codeloc : CodeLocation)
  : M TypeVar :=
  known <- gets (fun s => typevars_contains E (typevars s) var) ;;
  if negb known then
    tv <- new_TypeVariable ;;
    add_type_variable (Some var) codeloc tv ;;;
    ret tv
  else gets (fun s => typevars_getitem E (typevars s) var).

Definition _read_from_register (offset : Z) (size : Z) (expr : option Atom)
  : M RichR :=
  let codeloc := _codeloc in
  values <- region_load_opt RegisterRegion (PInt offset) size None ;;
  value_list <-
    match values with
    | None =>
        ident <- vm_next_variable_ident FunctionCatalog "register" ;;
        let variable_ :=
          SimRegisterVariable offset size ident (func_addr self) in
        let value := top E (size * byte_width (arch self)) in
        let value :=
          annotate_with_variables E value [(PInt 0, variable_)] in
        region_store RegisterRegion (PInt offset) (SDValue value) None ;;;
        vm_call FunctionCatalog
          (EvAddVariable "register" (PInt offset) variable_) ;;;
        ret [[value]]
    | Some m => ret (mv_values m)
    end ;;
  let found := flat_map (flat_map (extract_variables E)) value_list in
  for_ found (fun '(_, var) =>
    vm_call FunctionCatalog (EvReadFrom var PNone codeloc expr)) ;;;
  let variable_set := set_iter_var E (map snd found) in
  r <-
    (if is_artificial_register (arch self) offset size
        || Z.eqb offset (sp_offset (arch self))
        || Z.eqb offset (bp_offset (arch self))
     then ret (None, None)
     else
       match variable_set with
       | [] => raise StopIteration
       | var :: _ =>
           flush_delayed var ;;;
           tv <- register_typevar var codeloc ;;
           ret (Some var, Some tv)
       end) ;;
  let '(var, typevar_) := r in
  match value_list with
  | [] => raise IndexError
  | [] :: _ => raise StopIteration
  | (v :: _) :: _ => ret (RichR_ v var typevar_)
  end.

(** *** SimEngineVRBase.process (lines 67-78)

    [_process] hands over to [SimEngineLight._process], which is not in this
    file: [super_process] stands for it.  The keyword arguments are [block]
    and [fail_fast]; [is True] holds of the Boolean [True] only.  The
    assignment of [state.variable_manager] to the engine has no counterpart:
    the two catalogs are fields of the state. *)

Inductive kwvalue := KwBool (b : bool) | KwInt (n : Z) | KwNone.

Record Kwargs := mkKwargs {
  kw_block : option Z;
  kw_fail_fast : option kwvalue
}.

Definition is_True (v : option kwvalue) : bool :=
  match v with
  | Some (KwBool true) => true
  | _ => false
  end.

Variable super_process : option Z -> M unit.

Definition _process (block : option Z) : M unit := super_process block.

Definition process (kwargs : Kwargs) : M unit :=
  fun s =>
    match _process (kw_block kwargs) s with
    | (Raise (SimEngineError msg), s') =>
        if is_True (kw_fail_fast kwargs)
        then (Raise (SimEngineError msg), s')
        else (Ok tt, s')
    | r => r
    end.

End Engine.

(** ** Vocabulary of the statements *)

(** The constraints a RichR carries, as a list. *)
Definition riding_constraints (r : RichR) : list Constraint :=
  match type_constraints r with
  | Some tcs => tcs
  | None => []
  end.

(** The type variable of an address: its own, or the fresh one drawn when it
    has none. *)
Definition address_typevar (r : RichR) (s : State) : TypeVar :=
  match typevar r with
  | Some tv => tv
  | None => TypeVariable (typevar_counter s)
  end.

(** [HasField(bits, offset)] applied to [label] applied to the base of [tv],
    where an [AddN] label of [tv] gives the offset. *)
Definition derived_field (label : Label) (tv : TypeVar) (bits : Z) : TypeVar :=
  DerivedTypeVariable (DerivedTypeVariable (fst (split_AddN tv)) label)
                      (HasField bits (snd (split_AddN tv))).

(** An address that is neither concrete nor a resolvable stack address. *)
Definition unresolved_address (E : Collab) (addr : Value) : Prop :=
  concrete addr = false /\
  (is_stack_address E addr = false \/ get_stack_offset E addr = PNone).

(** The constraints added between two states. *)
Definition emitted (s s' : State) : list Constraint :=
  skipn (List.length (state_type_constraints s)) (state_type_constraints s').

Definition is_read_event (ev : VMEvent) : bool :=
  match ev with EvReadFrom _ _ _ _ => true | _ => false end.

Definition is_write_event (ev : VMEvent) : bool :=
  match ev with EvWriteTo _ _ _ _ => true | _ => false end.

(** A computation after which every constraint that was in the constraint
    set is still there, whether it returns or raises. *)
Definition only_grows {A} (m : M A) : Prop :=
  forall s c,
    In c (state_type_constraints s) ->
    In c (state_type_constraints (snd (m s))).

(** The state after the delayed constraints of [var] are flushed. *)
Definition flushed (var : SimVariable) (s : State) : State :=
  match delayed_lookup (delayed_type_constraints s) var with
  | Some cs =>
      upd_delayed (fun d => delayed_pop d var)
                  (upd_type_constraints (fun l => l ++ cs) s)
  | None => s
  end.


(** The register variable a register write uses: the one recorded for the
    destination atom of this statement, or a new one. *)
Definition destination_variable (E : Collab) (self : Engine) (offset size : Z)
  (dst : option Atom) (s : State) : SimVariable :=
  match find_variables_by_atom E (vm_function s) (block_addr self)
                               (stmt_idx self) dst with
  | [] =>
      SimRegisterVariable offset size
        (next_variable_ident E (vm_function s) "register") (func_addr self)
  | (v, _) :: _ => v
  end.

(** The pairs found on the values of the cells of a register read, and the
    read events recorded for them. *)
Definition found_in (E : Collab) (value_list : list (list Value))
  : list (pyoff * SimVariable) :=
  flat_map (flat_map (extract_variables E)) value_list.

Definition register_reads (self : Engine) (expr : option Atom)
  (found : list (pyoff * SimVariable)) : list VMEvent :=
  map (fun p => EvReadFrom (snd p) PNone (_codeloc self) expr) found.

(** A register that gets no type variable on a read. *)
Definition untyped_register (self : Engine) (offset size : Z) : bool :=
  is_artificial_register (arch self) offset size
  || Z.eqb offset (sp_offset (arch self))
  || Z.eqb offset (bp_offset (arch self)).

(** A field of the state is the same before and after. *)
Definition same {X} (p : State -> X) (s s' : State) : Prop := p s' = p s.

(** The variables already recorded for the statement of a store. *)
Definition existing_vars_of (E : Collab) (self : Engine) (c : Catalog)
  (stmt : option Atom) (s : State) : list (SimVariable * pyoff) :=
  match stmt with
  | None =>
      find_variables_by_stmt E (get_vm c s) (block_addr self)
                             (stmt_idx self) "memory"
  | Some _ =>
      find_variables_by_atom E (get_vm c s) (block_addr self)
                             (stmt_idx self) stmt
  end.

(** The variable a global store uses, and the calls that create it. *)
Definition global_variable (E : Collab) (self : Engine) (addr size : Z)
  (stmt : option Atom) (s : State) : SimVariable :=
  match existing_vars_of E self GlobalCatalog stmt s with
  | [] =>
      SimMemoryVariable addr size
        (Some (next_variable_ident E (vm_global s) "global"))
  | (v, _) :: _ => v
  end.

Definition global_creation (E : Collab) (self : Engine) (addr size : Z)
  (stmt : option Atom) (s : State) : list VMEvent :=
  match existing_vars_of E self GlobalCatalog stmt s with
  | [] =>
      [EvNextVariableIdent "global";
       EvSetVariable "global" (PInt addr)
                     (global_variable E self addr size stmt s)]
  | _ => []
  end.

(** The store call of a global store. *)
Definition global_store_call (E : Collab) (self : Engine) (addr size : Z)
  (d : RichR) (stmt : option Atom) (e : Endness) (s : State) : StoreCall :=
  mkStoreCall (PInt addr)
    (SDValue (annotate_with_variables E (data d)
                [(PInt 0, global_variable E self addr size stmt s)]))
    (Some e).

(** A write event per pair found, with the offset as found. *)
Definition write_events (self : Engine) (stmt : option Atom)
  (found : list (pyoff * SimVariable)) : list VMEvent :=
  map (fun p => EvWriteTo (snd p) (fst p) (_codeloc self) stmt) found.


(** The state after the mask of a masked stack offset is printed. *)
Definition printed (potential_offset : pyoff) (s : State) : State :=
  match potential_offset with
  | PTuple _ m => upd_stdout (fun out => out ++ [m]) s
  | _ => s
  end.

(** What the guarded stack load of a memory load yields. *)
Definition stack_values (E : Collab) (self : Engine)
  (concrete_offset custom_mask : pyoff) (size : Z) (s : State)
  : Outcome (option MultiValues) :=
  match stack_addr_from_offset E concrete_offset (Some custom_mask) with
  | Ok stack_addr =>
      Ok (region_load E (stack_region s) stack_addr size
                      (Some (memory_endness (arch self))))
  | Raise SimMemoryMissingError => Ok None
  | Raise e => Raise e
  end.

(** The variables a stack load finds on the loaded values, in the iteration
    order of their set. *)
Definition found_on_stack (E : Collab) (values : option MultiValues)
  : list (pyoff * SimVariable) :=
  set_iter E match values with
             | Some m => extract_all E m
             | None => []
             end.

(** The stack variable a load creates when it finds none. *)
Definition new_stack_variable (E : Collab) (self : Engine)
  (concrete_offset : pyoff) (size : Z) (s : State) : SimVariable :=
  SimStackVariable concrete_offset size "bp"
    (next_variable_ident E (vm_function s) "stack") (func_addr self).

(** The set [all_vars] of a stack load and the state once it is known. *)
Definition all_vars_of (E : Collab) (self : Engine)
  (values : option MultiValues) (concrete_offset : pyoff) (size : Z)
  (s : State) : list (pyoff * SimVariable) :=
  match found_on_stack E values with
  | [] => [(PInt 0, new_stack_variable E self concrete_offset size s)]
  | found => found
  end.

Definition all_vars_state (E : Collab) (self : Engine)
  (values : option MultiValues) (concrete_offset : pyoff) (size : Z)
  (s : State) : State :=
  match found_on_stack E values with
  | [] =>
      let v := new_stack_variable E self concrete_offset size s in
      upd_vm_function
        (fun log => log ++ [EvAddVariable "stack" concrete_offset v])
        (upd_stack_region
           (fun log => log ++
              [mkStoreCall concrete_offset
                 (SDValue (annotate_with_variables E
                             (top E (size * byte_width (arch self)))
                             [(PInt 0, v)]))
                 (Some (memory_endness (arch self)))])
           (upd_vm_function
              (fun log => log ++ [EvNextVariableIdent "stack"]) s))
  | _ => s
  end.

(** The type variable a load returns for the variable it selected, and the
    state after it is bound or reused. *)
Definition load_selected_typevar (E : Collab) (s : State) (var : SimVariable)
  (loc : CodeLocation) : option TypeVar :=
  if has_type_variable_for E (typevars s) var loc
  then get_type_variable E (typevars s) var loc
  else Some (TypeVariable (typevar_counter s)).

Definition typevar_bound (E : Collab) (var : SimVariable)
  (loc : CodeLocation) (s : State) : State :=
  if has_type_variable_for E (typevars s) var loc then s
  else upd_typevars
         (fun log => log ++ [(Some var, loc, TypeVariable (typevar_counter s))])
         (upd_typevar_counter S s).



(** A relation between the state before and the state after that a
    computation keeps, whether it returns or raises. *)
Definition pres (R : State -> State -> Prop) {A} (m : M A) : Prop :=
  forall s, R s (snd (m s)).

(** The constraint list after extends the one before. *)
Definition grows (s s' : State) : Prop :=
  exists added,
    state_type_constraints s' = state_type_constraints s ++ added.

(** The variable a stack store uses, its offset in the annotation, and the
    calls that create it. *)
Definition stack_variable (E : Collab) (self : Engine) (stack_offset : pyoff)
  (size : Z) (stmt : option Atom) (s : State) : SimVariable :=
  match existing_vars_of E self FunctionCatalog stmt s with
  | [] =>
      SimStackVariable stack_offset size "bp"
        (next_variable_ident E (vm_function s) "stack") (func_addr self)
  | (v, _) :: _ => v
  end.

Definition stack_variable_offset (E : Collab) (self : Engine)
  (stmt : option Atom) (s : State) : pyoff :=
  match existing_vars_of E self FunctionCatalog stmt s with
  | [] => PInt 0
  | (_, o) :: _ => o
  end.

Definition stack_creation (E : Collab) (self : Engine) (stack_offset : pyoff)
  (size : Z) (stmt : option Atom) (s : State) : list VMEvent :=
  match existing_vars_of E self FunctionCatalog stmt s with
  | [] =>
      [EvNextVariableIdent "stack";
       EvSetVariable "stack" stack_offset
                     (stack_variable E self stack_offset size stmt s)]
  | _ => []
  end.

(** The store call of a stack store at the stack address [addr]. *)
Definition stack_store_call (E : Collab) (self : Engine)
  (stack_offset addr : pyoff) (size : Z) (d : RichR) (stmt : option Atom)
  (endness : option Endness) (s : State) : StoreCall :=
  mkStoreCall addr
    (SDValue (annotate_with_variables E (data d)
                [(stack_variable_offset E self stmt s,
                  stack_variable E self stack_offset size stmt s)]))
    endness.

(** A write event per pair found, an offset 0 recorded as [None]. *)
Definition normalized_write_events (self : Engine) (stmt : option Atom)
  (found : list (pyoff * SimVariable)) : list VMEvent :=
  map (fun p => EvWriteTo (snd p) (zero_to_None (fst p)) (_codeloc self) stmt)
      found.

(** The type variable a load through a pointer derives, when the address has
    a type variable, and the constraint it emits for it. *)
Definition pointer_typevar (self : Engine) (r : RichR) (size : Z)
  : option TypeVar :=
  option_map
    (fun tv => derived_field Load tv (size * byte_width (arch self)))
    (typevar r).

Definition pointer_existence (self : Engine) (r : RichR) (size : Z)
  : list Constraint :=
  match pointer_typevar self r size with
  | Some tv => [Existence tv]
  | None => []
  end.

(** Every entry of the delayed table after was an entry before. *)
Definition shrinks (s s' : State) : Prop :=
  forall v cs,
    delayed_lookup (delayed_type_constraints s') v = Some cs ->
    delayed_lookup (delayed_type_constraints s) v = Some cs.




(** The 1-byte stack variable an address-taken reference creates. *)
Definition referenced_variable (E : Collab) (self : Engine)
  (stack_offset : pyoff) (s : State) : SimVariable :=
  SimStackVariable stack_offset 1 "bp"
    (next_variable_ident E (vm_function s) "stack") (func_addr self).

(** * A small implementation of the collaborators

    Used to run the engine on concrete inputs. *)

Module Sample.

Definition Endness_eq_dec (a b : Endness) : {a = b} + {a <> b}.
Proof. decide equality. Defined.

Definition Atom_eq_dec (a b : Atom) : {a = b} + {a <> b}.
Proof. decide equality; auto using Z.eq_dec, Endness_eq_dec. Defined.

Definition CodeLocation_eq_dec (a b : CodeLocation) : {a = b} + {a <> b}.
Proof. decide equality; auto using Z.eq_dec. Defined.

Definition pair_eq_dec (a b : pyoff * SimVariable) : {a = b} + {a <> b}.
Proof. decide equality; auto using pyoff_eq_dec, SimVariable_eq_dec. Defined.

Definition is_stack_base (a : AST) : bool :=
  match a with
  | BVS name _ => String.eqb name "stack_base"
  | _ => false
  end.

(** Modelled from the spec: stack-relative detection (section 4.7); an
    address is stack-relative when it is the stack base or the stack base
    plus or minus something, possibly masked. *)
Definition is_stack_address (v : Value) : bool :=
  match ast v with
  | BinOp _ (BinOp _ a _) (BVV _ _) => is_stack_base a
  | BinOp _ a _ => is_stack_base a
  | a => is_stack_base a
  end.

Fixpoint offset_of_ast (a : AST) : pyoff :=
  match a with
  | BVV n _ => PInt n
  | BVS name _ => PObj name
  | BinOp op x y =>
      PArith (if String.eqb op "__sub__" then ArithSub else ArithAdd)
             (offset_of_ast x) (offset_of_ast y)
  end.

Definition plain_stack_offset (a : AST) : pyoff :=
  match a with
  | BVS _ _ => if is_stack_base a then PInt 0 else PNone
  | BinOp op base (BVV n _) =>
      if is_stack_base base then
        if String.eqb op "__add__" then PInt n
        else if String.eqb op "__sub__" then PInt (- n)
        else PNone
      else PNone
  | BinOp op base off =>
      if is_stack_base base && String.eqb op "__add__"
      then offset_of_ast off else PNone
  | _ => PNone
  end.

(** Modelled from the spec: the stack offset is "either a plain integer, a
    pair (integer, bit-mask) when the low bits are forced to a known
    pattern, or a symbolic arithmetic expression" (section 4.7), and absent
    when the address is not resolved. *)
Definition get_stack_offset (v : Value) : pyoff :=
  match ast v with
  | BinOp op (BinOp op' a b) (BVV m _) =>
      if String.eqb op "__and__" then
        match plain_stack_offset (BinOp op' a b) with
        | PNone => PNone
        | o => PTuple o (PInt m)
        end
      else PNone
  | a => plain_stack_offset a
  end.

Definition stack_base_addr : Z := 2147418112.

(** Modelled from the spec: the key into the stack region of an integer
    stack offset; anything else is not a number to add to the base. *)
Definition stack_addr_from_offset (o : pyoff) (mask : option pyoff)
  : Outcome pyoff :=
  match o with
  | PInt n =>
      match mask with
      | Some (PInt m) => Ok (PInt (Z.land (stack_base_addr + n) m))
      | _ => Ok (PInt (stack_base_addr + n))
      end
  | _ => Raise TypeError
  end.

(** Modelled from the spec: the "top" value of a size, and the annotation
    of a value with variables (section 2, component 1; "round-trip
    annotation" in section 8). *)
Definition top (bits : Z) : Value := mkValue (BVS "top" bits) [].

Definition annotate_with_variables (v : Value)
  (l : list (pyoff * SimVariable)) : Value := mkValue (ast v) l.

Definition extract_variables (v : Value) : list (pyoff * SimVariable) :=
  annotations v.

Definition cells (d : StoreData) : MultiValues :=
  match d with
  | SDValue v => [(0, [v])]
  | SDMulti m => m
  end.

(** Modelled from the spec: [load] answers with what the last [store] at
    that key wrote, and is missing when there was none (section 4.1). *)
Definition region_load (log : Region) (addr : pyoff) (size : Z)
  (e : option Endness) : option MultiValues :=
  match find (fun c => if pyoff_eq_dec (sc_addr c) addr then true else false)
             (rev log) with
  | Some c => Some (cells (sc_data c))
  | None => None
  end.

Definition at_stmt (loc : CodeLocation) (block stmt : Z) : bool :=
  Z.eqb (cl_block_addr loc) block && Z.eqb (cl_stmt_idx loc) stmt.

Definition of_sort (sort : string) (v : SimVariable) : bool :=
  match v with
  | SimRegisterVariable _ _ _ _ => String.eqb sort "register"
  | _ => String.eqb sort "memory"
  end.

Definition access_of (ev : VMEvent)
  : option (SimVariable * pyoff * CodeLocation * option Atom) :=
  match ev with
  | EvWriteTo v o loc a => Some (v, o, loc, a)
  | EvReadFrom v o loc a => Some (v, o, loc, a)
  | EvReferenceAt v o loc a => Some (v, o, loc, a)
  | _ => None
  end.

(** Modelled from the spec: the variables recorded for a statement, and for
    an atom of a statement, by earlier use/def/reference events
    (section 4.3). *)
Definition find_variables_by_stmt (vm : VarManager) (block stmt : Z)
  (sort : string) : list (SimVariable * pyoff) :=
  flat_map (fun ev =>
    match access_of ev with
    | Some (v, o, loc, _) =>
        if at_stmt loc block stmt && of_sort sort v then [(v, o)] else []
    | None => []
    end) vm.

Definition find_variables_by_atom (vm : VarManager) (block stmt : Z)
  (atom : option Atom) : list (SimVariable * pyoff) :=
  flat_map (fun ev =>
    match access_of ev, atom with
    | Some (v, o, loc, Some a), Some a' =>
        if at_stmt loc block stmt && (if Atom_eq_dec a a' then true else false)
        then [(v, o)] else []
    | _, _ => []
    end) vm.

Definition is_ident_of (sort : string) (ev : VMEvent) : bool :=
  match ev with
  | EvNextVariableIdent s => String.eqb s sort
  | _ => false
  end.

Fixpoint ticks (n : nat) : string :=
  match n with
  | O => ""
  | S n' => "'" ++ ticks n'
  end.

(** Modelled from the spec: identifiers are "unique within their (kind,
    region) namespace and monotonically allocated" (section 3). *)
Definition next_variable_ident (vm : VarManager) (sort : string) : string :=
  (sort ++ "_" ++ ticks (List.length (filter (is_ident_of sort) vm)))%string.

Definition get_global_variables (vm : VarManager) (addr : Z)
  : list SimVariable :=
  flat_map (fun ev =>
    match ev with
    | EvAddVariable _ (PInt k) v | EvSetVariable _ (PInt k) v =>
        if Z.eqb k addr then [v] else []
    | _ => []
    end) vm.

Definition bound_at (v : SimVariable) (loc : CodeLocation)
  (b : option SimVariable * CodeLocation * TypeVar) : bool :=
  (if option_eq_dec SimVariable_eq_dec (fst (fst b)) (Some v)
   then true else false)
  && (if CodeLocation_eq_dec (snd (fst b)) loc then true else false).

Definition bound (v : SimVariable)
  (b : option SimVariable * CodeLocation * TypeVar) : bool :=
  if option_eq_dec SimVariable_eq_dec (fst (fst b)) (Some v)
  then true else false.

(** Modelled from the spec: one type-variable handle per variable and
    access point (section 4.4). *)
Definition has_type_variable_for (tvs : TypeVariables) (v : SimVariable)
  (loc : CodeLocation) : bool := existsb (bound_at v loc) tvs.

Definition get_type_variable (tvs : TypeVariables) (v : SimVariable)
  (loc : CodeLocation) : option TypeVar :=
  option_map snd (find (bound_at v loc) tvs).

Definition typevars_contains (tvs : TypeVariables) (v : SimVariable) : bool :=
  existsb (bound v) tvs.

Definition typevars_getitem (tvs : TypeVariables) (v : SimVariable)
  : TypeVar :=
  match find (bound v) (rev tvs) with
  | Some b => snd b
  | None => TypeVariable 0
  end.

(** Modelled from the spec: the residual of a symbolic offset is kept as an
    arithmetic expression (section 4.7); [None] and tuples do not
    subtract. *)
Definition arith_sub (a b : pyoff) : Outcome pyoff :=
  match a, b with
  | PNone, _ | _, PNone | PTuple _ _, _ | _, PTuple _ _ => Raise TypeError
  | _, _ => Ok (PArith ArithSub a b)
  end.

Definition collab : Collab :=
  mkCollab is_stack_address get_stack_offset stack_addr_from_offset
           top annotate_with_variables extract_variables region_load
           find_variables_by_stmt find_variables_by_atom next_variable_ident
           get_global_variables has_type_variable_for get_type_variable
           typevars_contains typevars_getitem arith_sub
           (nodup pair_eq_dec) (nodup SimVariable_eq_dec)
           (fun l x => nodup_In pair_eq_dec l x)
           (fun l x => nodup_In SimVariable_eq_dec l x).

(** An AMD64-like architecture: rsp at 48, rbp at 56, the condition-code
    registers artificial. *)
Definition sample_arch : Arch :=
  mkArch 8 48 56 Iend_LE
         (fun offset size => Z.leb 144 offset && Z.ltb offset 184).

Definition engine : Engine := mkEngine sample_arch (Some 4198400) 4198400 3 4198404.

Definition empty_state : State := mkState [] [] [] [] [] [] [] [] 100 [].

(** A block whose processing registers a variable and then faults. *)
Definition faulty_process (block : option Z) : M unit :=
  vm_call FunctionCatalog (EvNextVariableIdent "register") ;;;
  raise (SimEngineError "unsupported statement").

(** The same collaborators over region memories that never find what was
    stored: every [load] is missing. *)
Definition forgetful : Collab :=
  mkCollab is_stack_address get_stack_offset
           stack_addr_from_offset
           top annotate_with_variables extract_variables
           (fun _ _ _ _ => None)
           find_variables_by_stmt find_variables_by_atom
           next_variable_ident
           get_global_variables has_type_variable_for
           get_type_variable
           typevars_contains typevars_getitem arith_sub
           (nodup pair_eq_dec) (nodup SimVariable_eq_dec)
           (fun l x => nodup_In pair_eq_dec l x)
           (fun l x => nodup_In SimVariable_eq_dec l x).

(** Inputs of the examples: an opaque typed pointer, the stack slot at
    [stack_base - 16], a 32-bit constant with a type variable, a 64-bit
    symbol with one. *)
Definition typed_pointer : RichR :=
  RichR_ (mkValue (BVS "ptr" 64) []) None
         (Some (DerivedTypeVariable (TypeVariable 3) (AddN 8))).

Definition slot_address : RichR :=
  RichR_ (mkValue (BinOp "__sub__" (BVS "stack_base" 64) (BVV 16 64)) [])
         None None.

Definition typed_constant : RichR :=
  RichR_ (mkValue (BVV 1 32) []) None (Some (TypeVariable 9)).


Definition slot : pyoff := PInt (stack_base_addr - 16).

Definition slot_variable : SimVariable :=
  SimStackVariable (PInt (-16)) 4 "bp" "stack_" (Some 4198400).

End Sample.


(** * Reasoning about computations *)

(** ** A relation between the state before and the state after, kept by
    every step of a computation, whether it returns or raises. *)

Section Preserves.

Variable R : State -> State -> Prop.
Hypothesis R_refl : forall s, R s s.
Hypothesis R_trans : forall s1 s2 s3, R s1 s2 -> R s2 s3 -> R s1 s3.

Lemma pres_ret {A} (a : A) : pres R (ret a).
Proof. intro s; apply R_refl. Qed.

Lemma pres_raise {A} (e : exn) : pres R (@raise A e).
Proof. intro s; apply R_refl. Qed.

Lemma pres_lift {A} (o : Outcome A) : pres R (lift o).
Proof. intro s; apply R_refl. Qed.

Lemma pres_gets {A} (f : State -> A) : pres R (gets f).
Proof. intro s; apply R_refl. Qed.

Lemma pres_modify (f : State -> State) :
  (forall s, R s (f s)) -> pres R (modify f).
Proof. intros H s; apply H. Qed.

Lemma pres_bind {A B} (m : M A) (k : A -> M B) :
  pres R m -> (forall a, pres R (k a)) -> pres R (bind m k).
Proof.
  intros Hm Hk s. unfold bind.
  specialize (Hm s). destruct (m s) as [[a | e] s']; simpl in *.
  - eapply R_trans; [exact Hm | apply Hk].
  - exact Hm.
Qed.

Lemma pres_for {A} (l : list A) (body : A -> M unit) :
  (forall x, pres R (body x)) -> pres R (for_ l body).
Proof.
  intros Hb. induction l as [| x l IH]; simpl.
  - apply pres_ret.
  - apply pres_bind; [apply Hb | intros _; exact IH].
Qed.

Lemma pres_when (c : bool) (body : M unit) :
  pres R body -> pres R (when c body).
Proof. intros Hb. destruct c; simpl; [exact Hb | apply pres_ret]. Qed.

End Preserves.

(** ** The constraint set only grows *)

Lemma grows_refl : forall s, grows s s.
Proof. intro s; exists []; rewrite app_nil_r; reflexivity. Qed.

Lemma grows_trans : forall s1 s2 s3, grows s1 s2 -> grows s2 s3 -> grows s1 s3.
Proof.
  intros s1 s2 s3 [a Ha] [b Hb]. exists (a ++ b).
  rewrite Hb, Ha, app_assoc. reflexivity.
Qed.

Lemma grows_In s s' c :
  grows s s' -> In c (state_type_constraints s) ->
  In c (state_type_constraints s').
Proof. intros [a Ha] Hc. rewrite Ha. apply in_or_app. left. exact Hc. Qed.

(** A state change that leaves the constraint list alone. *)
Lemma grows_same s s' :
  state_type_constraints s' = state_type_constraints s -> grows s s'.
Proof. intro H; exists []; rewrite app_nil_r; exact H. Qed.

Section Grows.

Variable E : Collab.
Variable self : Engine.

Lemma grows_region_store r addr d e : pres grows (region_store r addr d e).
Proof.
  apply pres_modify. intro s. apply grows_same. destruct r; reflexivity.
Qed.

Lemma grows_region_load_opt r addr sz e :
  pres grows (region_load_opt E r addr sz e).
Proof. apply pres_gets, grows_refl. Qed.

Lemma grows_vm_call c ev : pres grows (vm_call c ev).
Proof.
  apply pres_modify. intro s. apply grows_same. destruct c; reflexivity.
Qed.

Lemma grows_vm_next_variable_ident c sort :
  pres grows (vm_next_variable_ident E c sort).
Proof. intro s. apply grows_same. destruct c; reflexivity. Qed.

Lemma grows_new_TypeVariable : pres grows new_TypeVariable.
Proof. intro s. apply grows_same. reflexivity. Qed.

Lemma grows_add_type_variable v loc tv :
  pres grows (add_type_variable v loc tv).
Proof. apply pres_modify. intro s. apply grows_same. reflexivity. Qed.

Lemma grows_add_type_constraint c : pres grows (add_type_constraint c).
Proof. apply pres_modify. intro s. exists [c]. reflexivity. Qed.

Lemma grows_print x : pres grows (print x).
Proof. apply pres_modify. intro s. apply grows_same. reflexivity. Qed.

Lemma grows_pop_delayed f : pres grows (modify (upd_delayed f)).
Proof. apply pres_modify. intro s. apply grows_same. reflexivity. Qed.

End Grows.

Create HintDb grows.
#[local] Hint Resolve grows_refl grows_trans : grows.
#[local] Hint Resolve grows_region_store grows_region_load_opt grows_vm_call
  grows_vm_next_variable_ident grows_new_TypeVariable grows_add_type_variable
  grows_add_type_constraint grows_print grows_pop_delayed : grows.

Lemma grows_bind {A B} (m : M A) (k : A -> M B) :
  pres grows m -> (forall a, pres grows (k a)) -> pres grows (bind m k).
Proof. apply pres_bind, grows_trans. Qed.

Lemma grows_for {A} (l : list A) (body : A -> M unit) :
  (forall x, pres grows (body x)) -> pres grows (for_ l body).
Proof. apply pres_for; [apply grows_refl | apply grows_trans]. Qed.

Lemma grows_when c body : pres grows body -> pres grows (when c body).
Proof. apply pres_when, grows_refl. Qed.

Ltac grows_tac :=
  repeat first
    [ solve [auto with grows]
    | match goal with
      | |- pres grows (bind _ _) => apply grows_bind; [| intros]
      | |- pres grows (ret _) => apply pres_ret, grows_refl
      | |- pres grows (raise _) => apply pres_raise, grows_refl
      | |- pres grows (lift _) => apply pres_lift, grows_refl
      | |- pres grows (gets _) => apply pres_gets, grows_refl
      | |- pres grows (for_ _ _) => apply grows_for; intros
      | |- pres grows (when _ _) => apply grows_when
      | |- pres grows (match ?x with _ => _ end) => destruct x
      end ].

Section GrowsEngine.

Variable E : Collab.
Variable self : Engine.

Lemma grows_add_riding_constraints r : pres grows (add_riding_constraints r).
Proof. unfold add_riding_constraints. grows_tac. Qed.

Lemma grows_flush_delayed v : pres grows (flush_delayed v).
Proof. unfold flush_delayed. grows_tac. Qed.

Lemma grows_reference r loc src : pres grows (_reference E self r loc src).
Proof. unfold _reference, reference_at_all. grows_tac. Qed.

Lemma grows_assign_to_register offset r size src dst :
  pres grows (_assign_to_register E self offset r size src dst).
Proof.
  unfold _assign_to_register.
  apply grows_bind; [apply grows_reference | intros].
  grows_tac.
Qed.

Lemma grows_store_type_constraints d v loc :
  pres grows (store_type_constraints E d v loc).
Proof. unfold store_type_constraints. grows_tac. Qed.

Lemma grows_store_to_stack off d size stmt e :
  pres grows (_store_to_stack E self off d size stmt e).
Proof.
  unfold _store_to_stack, find_existing_vars. 
  pose proof grows_store_type_constraints. grows_tac.
Qed.

Lemma grows_store_to_global addr d size stmt :
  pres grows (_store_to_global E self addr d size stmt).
Proof.
  unfold _store_to_global, find_existing_vars.
  pose proof grows_store_type_constraints. grows_tac.
Qed.

Lemma grows_store_to_variable r size stmt :
  pres grows (_store_to_variable self r size stmt).
Proof.
  unfold _store_to_variable. pose proof grows_add_riding_constraints.
  grows_tac.
Qed.

Lemma grows_store ra d size stmt : pres grows (_store E self ra d size stmt).
Proof.
  unfold _store.
  pose proof grows_store_to_global. pose proof grows_store_to_stack.
  pose proof grows_store_to_variable. grows_tac.
Qed.

Lemma grows_load_pointer r size : pres grows (_load_pointer E self r size).
Proof.
  unfold _load_pointer. pose proof grows_add_riding_constraints. grows_tac.
Qed.

Lemma grows_load_stack po size expr :
  pres grows (_load_stack E self po size expr).
Proof.
  unfold _load_stack, load_stack_values, load_all_vars, load_typevar.
  pose proof grows_flush_delayed. grows_tac.
Qed.

Lemma grows_load ra size expr : pres grows (_load E self ra size expr).
Proof.
  unfold _load, _load_global.
  pose proof grows_load_pointer. pose proof grows_load_stack. grows_tac.
Qed.

Lemma grows_read_from_register offset size expr :
  pres grows (_read_from_register E self offset size expr).
Proof.
  unfold _read_from_register, register_typevar.
  pose proof grows_flush_delayed. grows_tac.
Qed.

End GrowsEngine.

(** * What the loops do *)

Lemma upd_vm_nil c s : upd_vm c (fun log => log ++ []) s = s.
Proof.
  destruct c, s; unfold upd_vm, upd_vm_function, upd_vm_global; simpl;
    rewrite app_nil_r; reflexivity.
Qed.

Lemma upd_vm_app c l1 l2 s :
  upd_vm c (fun log => log ++ l2) (upd_vm c (fun log => log ++ l1) s)
  = upd_vm c (fun log => log ++ l1 ++ l2) s.
Proof.
  destruct c, s; unfold upd_vm, upd_vm_function, upd_vm_global; simpl;
    rewrite <- app_assoc; reflexivity.
Qed.

Lemma for_vm_call {A} c (f : A -> VMEvent) (body : A -> M unit) l s :
  (forall x, body x = vm_call c (f x)) ->
  for_ l body s = (Ok tt, upd_vm c (fun log => log ++ map f l) s).
Proof.
  intro Hb. revert s. induction l as [| x l IH]; intro s; simpl.
  - rewrite upd_vm_nil. reflexivity.
  - unfold bind. rewrite Hb. unfold vm_call, modify. rewrite IH.
    rewrite upd_vm_app. reflexivity.
Qed.

Lemma for_add_type_constraint cs s :
  for_ cs add_type_constraint s
  = (Ok tt, upd_type_constraints (fun l => l ++ cs) s).
Proof.
  revert s. induction cs as [| c cs IH]; intro s; simpl.
  - unfold ret, upd_type_constraints. destruct s; simpl.
    rewrite app_nil_r; reflexivity.
  - unfold bind, add_type_constraint, modify. rewrite IH.
    unfold upd_type_constraints. destruct s; simpl.
    rewrite <- app_assoc; reflexivity.
Qed.

Lemma add_riding_constraints_run r s :
  add_riding_constraints r s
  = (Ok tt, upd_type_constraints (fun l => l ++ riding_constraints r) s).
Proof.
  unfold add_riding_constraints, riding_constraints.
  destruct (type_constraints r) as [tcs |].
  - apply for_add_type_constraint.
  - unfold ret, upd_type_constraints. destruct s; simpl.
    rewrite app_nil_r; reflexivity.
Qed.

Lemma emitted_app s s' l :
  state_type_constraints s' = state_type_constraints s ++ l ->
  emitted s s' = l.
Proof.
  intro H. unfold emitted. rewrite H.
  rewrite skipn_app, skipn_all, Nat.sub_diag. reflexivity.
Qed.

(** * Store through an unknown pointer *)

Lemma store_to_variable_run self r size stmt s :
  let s' := snd (_store_to_variable self r size stmt s) in
  fst (_store_to_variable self r size stmt s) = Ok tt /\
  state_type_constraints s'
  = state_type_constraints s ++ riding_constraints r ++
    [Existence (derived_field Store (address_typevar r s)
                              (size * byte_width (arch self)))] /\
  stack_region s' = stack_region s /\
  register_region s' = register_region s /\
  global_region s' = global_region s.
Proof.
  unfold _store_to_variable, bind. rewrite add_riding_constraints_run.
  unfold derived_field, address_typevar.
  destruct (typevar r) as [tv |]; simpl;
    [destruct (split_AddN tv) as [base off] eqn:Hs
    | ]; destruct (variable r); simpl; rewrite <- ?app_assoc; auto 6.
Qed.

Lemma store_unresolved E self ra d size stmt s :
  unresolved_address E (data ra) ->
  _store E self ra d size stmt s = _store_to_variable self ra size stmt s.
Proof.
  intros [Hc Hs]. unfold _store. rewrite Hc.
  destruct (is_stack_address E (data ra)) eqn:Hi.
  - destruct Hs as [Hs | Hs]; [discriminate |]. rewrite Hs. reflexivity.
  - reflexivity.
Qed.

(** C1, as amended: a store whose address is neither concrete nor a
    resolvable stack address returns normally, adds to the constraint set the
    constraints the address RichR carries followed by exactly one constraint
    of its own, [Existence] of [HasField(size * byte_width, field offset)]
    applied to [Store] applied to the base type variable, and leaves the
    stack, register and global regions as they were. *)
Theorem store_unknown_pointer_existence E self ra d size stmt s :
  unresolved_address E (data ra) ->
  let s' := snd (_store E self ra d size stmt s) in
  fst (_store E self ra d size stmt s) = Ok tt /\
  emitted s s'
  = riding_constraints ra ++
    [Existence (derived_field Store (address_typevar ra s)
                              (size * byte_width (arch self)))] /\
  stack_region s' = stack_region s /\
  register_region s' = register_region s /\
  global_region s' = global_region s.
Proof.
  intros Hu. cbv zeta. rewrite (@store_unresolved E self ra d size stmt s Hu).
  destruct (store_to_variable_run self ra size stmt s)
    as (Hok & Hc & Hst & Hr & Hg).
  repeat split; auto using emitted_app.
Qed.

(** An opaque pointer with nothing riding on it, stored through on the
    sample engine. *)
Lemma store_unknown_pointer_existence_witness :
  let ra := RichR_ (mkValue (BVS "ptr" 64) []) None None in
  let d := RichR_ (mkValue (BVV 1 32) []) None None in
  let s' := snd (_store Sample.collab Sample.engine ra d 4 None
                        Sample.empty_state) in
  unresolved_address Sample.collab (data ra) /\
  emitted Sample.empty_state s'
  = [Existence (DerivedTypeVariable
                  (DerivedTypeVariable (TypeVariable 100) Store)
                  (HasField 32 0))] /\
  stack_region s' = [] /\ register_region s' = [] /\ global_region s' = [].
Proof.
  assert (Hu : unresolved_address Sample.collab
                 (data (RichR_ (mkValue (BVS "ptr" 64) []) None None)))
    by (split; [reflexivity | left; reflexivity]).
  split; [exact Hu |].
  destruct (@store_unknown_pointer_existence Sample.collab Sample.engine
              (RichR_ (mkValue (BVS "ptr" 64) []) None None)
              (RichR_ (mkValue (BVV 1 32) []) None None) 4 None
              Sample.empty_state Hu) as (_ & He & Hs & Hr & Hg).
  repeat split; assumption.
Defined.

(** C1, as stated, fails when the address RichR carries an [Existence]
    constraint: the store then emits two [Existence] constraints. *)
Lemma store_unknown_pointer_two_existence :
  let ra := mkRichR (mkValue (BVS "ptr" 64) []) None None
                    (Some [Existence (TypeVariable 7)]) in
  let d := RichR_ (mkValue (BVV 1 32) []) None None in
  let s' := snd (_store Sample.collab Sample.engine ra d 4 None
                        Sample.empty_state) in
  unresolved_address Sample.collab (data ra) /\
  filter is_Existence (emitted Sample.empty_state s')
  = [Existence (TypeVariable 7);
     Existence (DerivedTypeVariable
                  (DerivedTypeVariable (TypeVariable 100) Store)
                  (HasField 32 0))].
Proof.
  split; [split; [reflexivity | left; reflexivity] | vm_compute; reflexivity].
Qed.

(** C7: no engine operation (address-taken reference, register write, the
    memory store and each of its three paths, memory load, register read)
    removes a constraint from the constraint set, whether the operation
    returns or raises. *)
Theorem constraints_only_grow E self :
  (forall r loc src, only_grows (_reference E self r loc src)) /\
  (forall offset r size src dst,
      only_grows (_assign_to_register E self offset r size src dst)) /\
  (forall ra d size stmt, only_grows (_store E self ra d size stmt)) /\
  (forall addr d size stmt,
      only_grows (_store_to_global E self addr d size stmt)) /\
  (forall off d size stmt e,
      only_grows (_store_to_stack E self off d size stmt e)) /\
  (forall ra size stmt, only_grows (_store_to_variable self ra size stmt)) /\
  (forall ra size expr, only_grows (_load E self ra size expr)) /\
  (forall offset size expr,
      only_grows (_read_from_register E self offset size expr)).
Proof.
  unfold only_grows.
  repeat split; intros; eapply grows_In; eauto;
    [ apply grows_reference | apply grows_assign_to_register
    | apply grows_store | apply grows_store_to_global
    | apply grows_store_to_stack | apply grows_store_to_variable
    | apply grows_load | apply grows_read_from_register ].
Qed.

(** C8: when processing raises a [SimEngineError], [process] returns
    normally if [fail_fast] is absent or [False], and raises the same error
    if [fail_fast] is [True]; the state is the one the fault left. *)
Theorem process_SimEngineError super_process kwargs s msg s' :
  super_process (kw_block kwargs) s = (Raise (SimEngineError msg), s') ->
  (kw_fail_fast kwargs = None ->
   process super_process kwargs s = (Ok tt, s')) /\
  (kw_fail_fast kwargs = Some (KwBool false) ->
   process super_process kwargs s = (Ok tt, s')) /\
  (kw_fail_fast kwargs = Some (KwBool true) ->
   process super_process kwargs s = (Raise (SimEngineError msg), s')).
Proof.
  intro H. unfold process, _process. rewrite H.
  repeat split; intros ->; reflexivity.
Qed.

Lemma process_SimEngineError_witness :
  let s' := upd_vm_function (fun log => log ++ [EvNextVariableIdent "register"])
                            Sample.empty_state in
  process Sample.faulty_process (mkKwargs (Some 4198400) None) Sample.empty_state
  = (Ok tt, s') /\
  process Sample.faulty_process (mkKwargs (Some 4198400) (Some (KwBool true)))
          Sample.empty_state
  = (Raise (SimEngineError "unsupported statement"), s').
Proof.
  split.
  - apply (proj1 (@process_SimEngineError Sample.faulty_process
                    (mkKwargs (Some 4198400) None) Sample.empty_state
                    "unsupported statement" _ eq_refl)).
    reflexivity.
  - apply (proj2 (proj2 (@process_SimEngineError Sample.faulty_process
                    (mkKwargs (Some 4198400) (Some (KwBool true)))
                    Sample.empty_state "unsupported statement" _ eq_refl))).
    reflexivity.
Defined.

(** * Fields an operation leaves alone *)

Lemma same_refl {X} (p : State -> X) s : same p s s.
Proof. reflexivity. Qed.

Lemma same_trans {X} (p : State -> X) s1 s2 s3 :
  same p s1 s2 -> same p s2 s3 -> same p s1 s3.
Proof. unfold same. congruence. Qed.

Ltac same_tac :=
  repeat first
    [ assumption
    | match goal with
      | |- pres (same _) (bind _ _) =>
          apply pres_bind; [apply same_trans | | intros]
      | |- pres (same _) (ret _) => apply pres_ret, same_refl
      | |- pres (same _) (raise _) => apply pres_raise, same_refl
      | |- pres (same _) (lift _) => apply pres_lift, same_refl
      | |- pres (same _) (gets _) => apply pres_gets, same_refl
      | |- pres (same _) (for_ _ _) =>
          apply pres_for; [apply same_refl | apply same_trans | intros]
      | |- pres (same _) (when _ _) => apply pres_when; [apply same_refl |]
      | |- pres (same _) (match ?x with _ => _ end) => destruct x
      | |- pres (same _) _ => solve [intro; reflexivity]
      end ].

Lemma reference_same_constraints E self r loc src :
  pres (same state_type_constraints) (_reference E self r loc src).
Proof. unfold _reference, reference_at_all. same_tac. Qed.

Lemma set_iter_nil E : set_iter E [] = [].
Proof.
  destruct (set_iter E []) as [| x l] eqn:H; [reflexivity |].
  exfalso. apply (proj1 (set_iter_In E [] x)). rewrite H. left. reflexivity.
Qed.

Lemma set_iter_var_nil E : set_iter_var E [] = [].
Proof.
  destruct (set_iter_var E []) as [| x l] eqn:H; [reflexivity |].
  exfalso. apply (proj1 (set_iter_var_In E [] x)). rewrite H. left.
  reflexivity.
Qed.

Lemma flat_map_nil {A B} (f : A -> list B) l :
  (forall x, In x l -> f x = []) -> flat_map f l = [].
Proof.
  induction l as [| x l IH]; intro H; simpl; [reflexivity |].
  rewrite (H x (or_introl eq_refl)), IH; [reflexivity |].
  intros y Hy. apply H. right. exact Hy.
Qed.

Lemma flush_delayed_run var s : flush_delayed var s = (Ok tt, flushed var s).
Proof.
  unfold flush_delayed, flushed, bind, gets.
  destruct (delayed_lookup (delayed_type_constraints s) var) as [cs |].
  - rewrite for_add_type_constraint. reflexivity.
  - reflexivity.
Qed.

Lemma register_reads_run self expr found s :
  for_ found (fun '(_, var) =>
    vm_call FunctionCatalog (EvReadFrom var PNone (_codeloc self) expr)) s
  = (Ok tt,
     upd_vm_function (fun log => log ++ register_reads self expr found) s).
Proof.
  change (upd_vm_function
            (fun log => log ++ register_reads self expr found) s)
    with (upd_vm FunctionCatalog
            (fun log => log ++
               map (fun p : pyoff * SimVariable =>
                      EvReadFrom (snd p) PNone (_codeloc self) expr) found)
            s).
  apply for_vm_call. intros [o v]. reflexivity.
Qed.


Lemma flushed_frame var s :
  stack_region (flushed var s) = stack_region s /\
  register_region (flushed var s) = register_region s /\
  global_region (flushed var s) = global_region s /\
  typevars (flushed var s) = typevars s /\
  vm_function (flushed var s) = vm_function s /\
  vm_global (flushed var s) = vm_global s /\
  typevar_counter (flushed var s) = typevar_counter s.
Proof.
  unfold flushed.
  destruct (delayed_lookup (delayed_type_constraints s) var);
    repeat split; reflexivity.
Qed.


Lemma delayed_lookup_pop d var : delayed_lookup (delayed_pop d var) var = None.
Proof.
  induction d as [| [k cs] d IH]; simpl; [reflexivity |].
  destruct (SimVariable_eq_dec k var) as [Heq | Hne]; [exact IH |].
  simpl. destruct (SimVariable_eq_dec k var); [contradiction | exact IH].
Qed.


Lemma register_typevar_frame E var loc :
  pres (same vm_function) (register_typevar E var loc) /\
  pres (same register_region) (register_typevar E var loc) /\
  pres (same state_type_constraints) (register_typevar E var loc) /\
  pres (same delayed_type_constraints) (register_typevar E var loc).
Proof. unfold register_typevar. repeat split; same_tac. Qed.

Lemma read_from_register_loaded E self offset size expr s m :
  region_load E (register_region s) (PInt offset) size None = Some m ->
  let s' := snd (_read_from_register E self offset size expr s) in
  register_region s' = register_region s /\
  vm_function s'
  = vm_function s ++ register_reads self expr (found_in E (mv_values m)).
Proof.
  intros Hload. cbv zeta.
  remember (_read_from_register E self offset size expr s) as run eqn:Hrun.
  unfold _read_from_register, bind, region_load_opt, gets, get_region
    in Hrun.
  rewrite Hload in Hrun. unfold ret at 1 in Hrun.
  fold (found_in E (mv_values m)) in Hrun.
  rewrite register_reads_run in Hrun.
  set (s1 := upd_vm_function _ s) in Hrun.
  destruct (is_artificial_register (arch self) offset size
            || Z.eqb offset (sp_offset (arch self))
            || Z.eqb offset (bp_offset (arch self))).
  - unfold ret at 1 in Hrun.
    destruct (mv_values m) as [| [| v vs] rest]; subst run; simpl; auto.
  - destruct (set_iter_var E (map snd (found_in E (mv_values m))))
      as [| var vars]; [subst run; simpl; auto |].
    rewrite flush_delayed_run in Hrun.
    destruct (register_typevar_frame E var (_codeloc self))
      as (Hvm & Hreg & _).
    specialize (Hvm (flushed var s1)). specialize (Hreg (flushed var s1)).
    unfold same in Hvm, Hreg.
    destruct (flushed_frame var s1) as (_ & Hr & _ & _ & Hv & _).
    rewrite Hr in Hreg. rewrite Hv in Hvm.
    destruct (register_typevar E var (_codeloc self) (flushed var s1))
      as [[tv | e] s2]; simpl in *.
    + destruct (mv_values m) as [| [| v vs] rest]; subst run; simpl; auto.
    + subst run; auto.
Qed.

Lemma read_from_register_unannotated E self offset size expr s m :
  is_artificial_register (arch self) offset size = false ->
  offset <> sp_offset (arch self) ->
  offset <> bp_offset (arch self) ->
  region_load E (register_region s) (PInt offset) size None = Some m ->
  (forall values v, In values (mv_values m) -> In v values ->
                    extract_variables E v = []) ->
  _read_from_register E self offset size expr s = (Raise StopIteration, s).
Proof.
  intros Hart Hsp Hbp Hload Hno.
  unfold _read_from_register, bind, region_load_opt, gets. simpl.
  rewrite Hload. unfold ret at 1.
  assert (Hf : flat_map (flat_map (extract_variables E)) (mv_values m) = []).
  { apply flat_map_nil. intros values Hv. apply flat_map_nil.
    intros v Hin. eapply Hno; eauto. }
  rewrite Hf. simpl. rewrite set_iter_var_nil.
  rewrite Hart. simpl.
  destruct (Z.eqb_spec offset (sp_offset (arch self))); [contradiction |].
  destruct (Z.eqb_spec offset (bp_offset (arch self))); [contradiction |].
  reflexivity.
Qed.

Lemma vm_call_run c ev s :
  vm_call c ev s = (Ok tt, upd_vm c (fun log => log ++ [ev]) s).
Proof. reflexivity. Qed.

Lemma read_untyped_register E self offset size expr s :
  untyped_register self offset size = true ->
  let run := _read_from_register E self offset size expr s in
  typevars (snd run) = typevars s /\
  fst run
  = match region_load E (register_region s) (PInt offset) size None with
    | None =>
        Ok (RichR_
              (annotate_with_variables E
                 (top E (size * byte_width (arch self)))
                 [(PInt 0,
                   SimRegisterVariable offset size
                     (next_variable_ident E (vm_function s) "register")
                     (func_addr self))])
              None None)
    | Some m =>
        match mv_values m with
        | [] => Raise IndexError
        | [] :: _ => Raise StopIteration
        | (v :: _) :: _ => Ok (RichR_ v None None)
        end
    end.
Proof.
  intros Hun. cbv zeta. unfold untyped_register in Hun.
  remember (_read_from_register E self offset size expr s) as run eqn:Hrun.
  unfold _read_from_register, bind, region_load_opt, gets, get_region
    in Hrun.
  rewrite Hun in Hrun.
  destruct (region_load E (register_region s) (PInt offset) size None)
    as [m |].
  - unfold ret at 1 in Hrun. rewrite register_reads_run in Hrun.
    unfold ret at 1 in Hrun.
    destruct (mv_values m) as [| [| v vs] rest]; subst run; simpl; auto.
  - unfold vm_next_variable_ident, region_store, modify in Hrun.
    rewrite vm_call_run in Hrun.
    unfold ret at 1 in Hrun.
    rewrite register_reads_run in Hrun. subst run. simpl. auto.
Qed.

(** C3, as amended: a register write whose address-taken step returns
    binds a fresh type variable to the destination register variable and
    emits exactly the two constraints [Subtype(source, fresh)] and
    [Subtype(fresh, int_type(size of the variable * 8))] when the register is
    not artificial, the written RichR carries a type variable and the
    variable has no type variable at this code location yet; in every other
    case the write binds no type variable and emits no constraint. *)
Theorem register_write_constraints E self offset r size src dst s :
  fst (_reference E self r (_codeloc self) src s) = Ok tt ->
  let s1 := snd (_reference E self r (_codeloc self) src s) in
  let s' := snd (_assign_to_register E self offset r size src dst s) in
  let v := destination_variable E self offset size dst s1 in
  let fresh := TypeVariable (typevar_counter s1) in
  fst (_assign_to_register E self offset r size src dst s) = Ok tt /\
  match typevar r with
  | Some rtv =>
      if negb (is_artificial_register (arch self) offset size)
         && negb (has_type_variable_for E (typevars s1) v (_codeloc self))
      then
        typevars s' = typevars s1 ++ [(Some v, _codeloc self, fresh)] /\
        emitted s s'
        = [Subtype rtv fresh; Subtype fresh (int_type (var_size v * 8))]
      else typevars s' = typevars s1 /\ emitted s s' = []
  | None => typevars s' = typevars s1 /\ emitted s s' = []
  end.
Proof.
  intros Href. cbv zeta.
  pose proof (reference_same_constraints E self r (_codeloc self) src s)
    as Hsame. unfold same in Hsame.
  remember (_assign_to_register E self offset r size src dst s) as run
    eqn:Hrun.
  unfold _assign_to_register, bind in Hrun.
  destruct (_reference E self r (_codeloc self) src s) as [[[] | e] s1]
    eqn:Hr; simpl in Href, Hsame |- *; [| discriminate].
  unfold gets in Hrun. unfold destination_variable.
  assert (Hnil : forall s2, state_type_constraints s2
                            = state_type_constraints s1 ->
                            emitted s s2 = []).
  { intros s2 H2. apply emitted_app. rewrite H2, Hsame, app_nil_r.
    reflexivity. }
  destruct (find_variables_by_atom E (vm_function s1) (block_addr self)
              (stmt_idx self) dst) as [| [v o] rest];
    unfold vm_next_variable_ident, region_store, vm_call, modify, ret,
      new_TypeVariable, add_type_variable, add_type_constraint in Hrun;
    simpl in Hrun;
    destruct (is_artificial_register (arch self) offset size);
    destruct (typevar r) as [rtv |]; simpl in Hrun |- *;
    try (subst run; simpl; split; [reflexivity | split; [reflexivity |]];
         apply Hnil; reflexivity).
  - destruct (has_type_variable_for E (typevars s1) _ (_codeloc self));
      subst run; simpl.
    + split; [reflexivity | split; [reflexivity |]]. apply Hnil. reflexivity.
    + split; [reflexivity | split; [reflexivity |]]. apply emitted_app.
      simpl. rewrite Hsame, <- app_assoc. reflexivity.
  - destruct (has_type_variable_for E (typevars s1) _ (_codeloc self));
      subst run; simpl.
    + split; [reflexivity | split; [reflexivity |]]. apply Hnil. reflexivity.
    + split; [reflexivity | split; [reflexivity |]]. apply emitted_app.
      simpl. rewrite Hsame, <- app_assoc. reflexivity.
Qed.

Lemma assign_to_artificial_register E self offset r size src dst s :
  is_artificial_register (arch self) offset size = true ->
  typevars (snd (_assign_to_register E self offset r size src dst s))
  = typevars (snd (_reference E self r (_codeloc self) src s)).
Proof.
  intros Hart.
  remember (_assign_to_register E self offset r size src dst s) as run
    eqn:Hrun.
  unfold _assign_to_register, bind in Hrun. rewrite Hart in Hrun.
  destruct (_reference E self r (_codeloc self) src s) as [[[] | e] s1];
    [| subst run; reflexivity].
  unfold gets in Hrun.
  destruct (find_variables_by_atom E (vm_function s1) (block_addr self)
              (stmt_idx self) dst) as [| [v o] rest];
    subst run; reflexivity.
Qed.

(** A non-artificial register written with a value that carries a type
    variable. *)
Lemma register_write_constraints_witness :
  let r := RichR_ (mkValue (BVS "x" 64) []) None (Some (TypeVariable 9)) in
  let loc := _codeloc Sample.engine in
  let v := SimRegisterVariable 16 8 "register_" (Some 4198400) in
  let s' := snd (_assign_to_register Sample.collab Sample.engine 16 r 8 None
                   (Some (AtomExpr 1)) Sample.empty_state) in
  fst (_reference Sample.collab Sample.engine r loc None Sample.empty_state)
  = Ok tt /\
  typevars s' = [(Some v, loc, TypeVariable 100)] /\
  emitted Sample.empty_state s'
  = [Subtype (TypeVariable 9) (TypeVariable 100);
     Subtype (TypeVariable 100) (int_type 64)].
Proof.
  split; [reflexivity |].
  pose proof (@register_write_constraints Sample.collab Sample.engine 16
                (RichR_ (mkValue (BVS "x" 64) []) None
                        (Some (TypeVariable 9)))
                8 None (Some (AtomExpr 1)) Sample.empty_state eq_refl) as H.
  vm_compute in H. vm_compute. exact (proj2 H).
Defined.

(** C3, as stated, fails: a write to an artificial register whose value
    carries a type variable binds nothing and emits nothing, and so does a
    write to an ordinary register whose value carries none. *)
Lemma register_write_no_constraints :
  let with_tv := RichR_ (mkValue (BVS "x" 64) []) None
                        (Some (TypeVariable 9)) in
  let without_tv := RichR_ (mkValue (BVS "x" 64) []) None None in
  let s1 := snd (_assign_to_register Sample.collab Sample.engine 144 with_tv
                   8 None (Some (AtomExpr 1)) Sample.empty_state) in
  let s2 := snd (_assign_to_register Sample.collab Sample.engine 16
                   without_tv 8 None (Some (AtomExpr 1))
                   Sample.empty_state) in
  is_artificial_register (arch Sample.engine) 144 8 = true /\
  typevars s1 = [] /\ emitted Sample.empty_state s1 = [] /\
  is_artificial_register (arch Sample.engine) 16 8 = false /\
  typevars s2 = [] /\ emitted Sample.empty_state s2 = [].
Proof. vm_compute. repeat split; reflexivity. Qed.

(** C9, as amended: a register read of an artificial register or at the
    stack-pointer or base-pointer offset binds no type variable and returns
    the first value of the first cell in a RichR with no variable and no
    type variable; a register write to an artificial register binds no type
    variable beyond what the address-taken step binds. *)
Theorem untyped_registers_get_no_typevar E self offset size :
  (untyped_register self offset size = true ->
   forall expr s,
     let run := _read_from_register E self offset size expr s in
     typevars (snd run) = typevars s /\
     fst run
     = match region_load E (register_region s) (PInt offset) size None with
       | None =>
           Ok (RichR_
                 (annotate_with_variables E
                    (top E (size * byte_width (arch self)))
                    [(PInt 0,
                      SimRegisterVariable offset size
                        (next_variable_ident E (vm_function s) "register")
                        (func_addr self))])
                 None None)
       | Some m =>
           match mv_values m with
           | [] => Raise IndexError
           | [] :: _ => Raise StopIteration
           | (v :: _) :: _ => Ok (RichR_ v None None)
           end
       end) /\
  (is_artificial_register (arch self) offset size = true ->
   forall r src dst s,
     typevars (snd (_assign_to_register E self offset r size src dst s))
     = typevars (snd (_reference E self r (_codeloc self) src s))).
Proof.
  split.
  - intros Hun expr s. apply read_untyped_register. exact Hun.
  - intros Hart r src dst s. apply assign_to_artificial_register. exact Hart.
Qed.

(** A read of the stack pointer from an empty register region, and a write
    to a condition-code register. *)
Lemma untyped_registers_get_no_typevar_witness :
  let r := RichR_ (mkValue (BVS "x" 64) []) None (Some (TypeVariable 9)) in
  let read := _read_from_register Sample.collab Sample.engine 48 8 None
                                  Sample.empty_state in
  let written := snd (_assign_to_register Sample.collab Sample.engine 144 r
                        8 None None Sample.empty_state) in
  untyped_register Sample.engine 48 8 = true /\
  is_artificial_register (arch Sample.engine) 144 8 = true /\
  typevars (snd read) = [] /\
  fst read
  = Ok (RichR_ (mkValue (BVS "top" 64)
                  [(PInt 0,
                    SimRegisterVariable 48 8 "register_" (Some 4198400))])
               None None) /\
  typevars written = [].
Proof.
  split; [reflexivity | split; [reflexivity |]].
  pose proof (@untyped_registers_get_no_typevar Sample.collab Sample.engine 48 8) as [H _].
  specialize (H eq_refl None Sample.empty_state).
  pose proof (@untyped_registers_get_no_typevar Sample.collab Sample.engine 144 8) as [_ W].
  specialize (W eq_refl
                (RichR_ (mkValue (BVS "x" 64) []) None
                        (Some (TypeVariable 9)))
                None None Sample.empty_state).
  vm_compute in H. vm_compute in W. vm_compute.
  destruct H as [H1 H2]. repeat split; assumption.
Defined.

(** C9, as stated, fails for a register write at the stack-pointer offset:
    the write binds a fresh type variable to the register variable. *)
Lemma stack_pointer_write_binds_typevar :
  let r := RichR_ (mkValue (BVS "x" 64) []) None (Some (TypeVariable 9)) in
  let s' := snd (_assign_to_register Sample.collab Sample.engine 48 r 8 None
                   None Sample.empty_state) in
  sp_offset (arch Sample.engine) = 48 /\
  typevars s'
  = [(Some (SimRegisterVariable 48 8 "register_" (Some 4198400)),
      _codeloc Sample.engine, TypeVariable 100)].
Proof. vm_compute. split; reflexivity. Qed.

(** C10: a register read of a register that is not artificial and not at
    the stack-pointer or base-pointer offset, whose region load succeeds,
    raises [StopIteration] and changes nothing when no loaded value carries
    a variable; and whenever the load succeeds the read stores nothing in the
    register region and records read events only, so that a register
    variable is synthesized only after a missing load. *)
Theorem read_register_without_annotation E self offset size expr s m :
  is_artificial_register (arch self) offset size = false ->
  offset <> sp_offset (arch self) ->
  offset <> bp_offset (arch self) ->
  region_load E (register_region s) (PInt offset) size None = Some m ->
  let run := _read_from_register E self offset size expr s in
  ((forall values v, In values (mv_values m) -> In v values ->
                     extract_variables E v = []) ->
   run = (Raise StopIteration, s)) /\
  register_region (snd run) = register_region s /\
  vm_function (snd run)
  = vm_function s ++ register_reads self expr (found_in E (mv_values m)).
Proof.
  intros Hart Hsp Hbp Hload. cbv zeta. split.
  - intro Hno. apply read_from_register_unannotated with (m := m); assumption.
  - apply read_from_register_loaded. exact Hload.
Qed.

(** A register that holds a constant nobody annotated. *)
Lemma read_register_without_annotation_witness :
  let s := upd_register_region
             (fun _ => [mkStoreCall (PInt 16)
                          (SDValue (mkValue (BVV 5 64) [])) None])
             Sample.empty_state in
  is_artificial_register (arch Sample.engine) 16 8 = false /\
  16 <> sp_offset (arch Sample.engine) /\
  16 <> bp_offset (arch Sample.engine) /\
  region_load Sample.collab (register_region s) (PInt 16) 8 None
  = Some [(0, [mkValue (BVV 5 64) []])] /\
  _read_from_register Sample.collab Sample.engine 16 8 None s
  = (Raise StopIteration, s).
Proof.
  assert (H16 : 16 <> 48) by discriminate.
  assert (H16' : 16 <> 56) by discriminate.
  intro s.
  split; [reflexivity |]. split; [exact H16 |]. split; [exact H16' |].
  split; [reflexivity |].
  refine (proj1 (@read_register_without_annotation Sample.collab
                   Sample.engine 16 8 None s [(0, [mkValue (BVV 5 64) []])]
                   eq_refl H16 H16' eq_refl) _).
  intros values v [<- | []] [<- | []]. reflexivity.
Defined.

(** * Stores and loads *)

Lemma store_type_constraints_frame E d v loc :
  pres (same global_region) (store_type_constraints E d v loc) /\
  pres (same vm_global) (store_type_constraints E d v loc) /\
  pres (same stack_region) (store_type_constraints E d v loc) /\
  pres (same vm_function) (store_type_constraints E d v loc).
Proof. unfold store_type_constraints. repeat split; same_tac. Qed.

Lemma write_events_run self c stmt found s :
  for_ found (fun '(var_offset, var) =>
    vm_call c (EvWriteTo var var_offset (_codeloc self) stmt)) s
  = (Ok tt, upd_vm c (fun log => log ++ write_events self stmt found) s).
Proof.
  unfold write_events. apply for_vm_call. intros [o v]. reflexivity.
Qed.

(** C5, as amended: a global store whose read-back succeeds writes the
    annotated value into the global region and records, in the global
    catalog, after the creation of the variable if there was none, one WRITE
    event at this code location for every variable annotated on the values
    read back, with the offset found, and nothing else. *)
Theorem global_store_records_writes E self addr d size stmt s e values :
  global_endness self stmt = Ok e ->
  region_load E
    (global_region s ++ [global_store_call E self addr size d stmt e s])
    (PInt addr) size (Some e) = Some values ->
  let s' := snd (_store_to_global E self addr d size stmt s) in
  global_region s'
  = global_region s ++ [global_store_call E self addr size d stmt e s] /\
  vm_global s'
  = vm_global s ++ global_creation E self addr size stmt s ++
    write_events self stmt (extract_all E values).
Proof.
  intros He Hload. cbv zeta.
  remember (_store_to_global E self addr d size stmt s) as run eqn:Hrun.
  unfold _store_to_global, bind in Hrun.
  unfold global_store_call, global_creation in *.
  unfold global_variable in *.
  assert (Hfind : find_existing_vars E self GlobalCatalog stmt s
                  = (Ok (existing_vars_of E self GlobalCatalog stmt s), s)).
  { unfold find_existing_vars, existing_vars_of, gets.
    destruct stmt; reflexivity. }
  rewrite Hfind in Hrun.
  assert (Hg : forall v loc,
             pres (same global_region) (store_type_constraints E d v loc))
    by (intros; apply store_type_constraints_frame).
  assert (Hv : forall v loc,
             pres (same vm_global) (store_type_constraints E d v loc))
    by (intros; apply store_type_constraints_frame).
  destruct (existing_vars_of E self GlobalCatalog stmt s) as [| [v o] rest].
  - unfold vm_next_variable_ident in Hrun. rewrite vm_call_run in Hrun.
    unfold ret at 1 in Hrun. unfold lift in Hrun. rewrite He in Hrun.
    unfold region_store, modify, region_load_opt, gets in Hrun.
    simpl in Hrun. simpl in Hload. rewrite Hload in Hrun.
    rewrite write_events_run in Hrun.
    match type of Hrun with
    | _ = store_type_constraints E d ?v ?loc ?s0 =>
        specialize (Hg v loc s0); specialize (Hv v loc s0);
        destruct (store_type_constraints E d v loc s0) as [o1 s1]
    end.
    subst run. unfold same in *. simpl in *. rewrite Hg, Hv.
    rewrite <- !app_assoc. auto.
  - unfold ret at 1 in Hrun. unfold lift in Hrun. rewrite He in Hrun.
    unfold region_store, modify, region_load_opt, gets in Hrun.
    simpl in Hrun. simpl in Hload. rewrite Hload in Hrun.
    rewrite write_events_run in Hrun.
    match type of Hrun with
    | _ = store_type_constraints E d ?v ?loc ?s0 =>
        specialize (Hg v loc s0); specialize (Hv v loc s0);
        destruct (store_type_constraints E d v loc s0) as [o1 s1]
    end.
    subst run. unfold same in *. simpl in *. rewrite Hg, Hv. auto.
Qed.

Lemma find_existing_vars_run E self c stmt s :
  find_existing_vars E self c stmt s = (Ok (existing_vars_of E self c stmt s), s).
Proof.
  unfold find_existing_vars, existing_vars_of, gets. destruct stmt; reflexivity.
Qed.

Lemma store_symbolic_stack_offset E self ra d size stmt s op a b :
  concrete (data ra) = false ->
  is_stack_address E (data ra) = true ->
  get_stack_offset E (data ra) = PArith op a b ->
  _store E self ra d size stmt s
  = (Ok tt,
     match existing_vars_of E self FunctionCatalog stmt s with
     | [] => upd_vm_function
               (fun log => log ++ [EvNextVariableIdent "stack"]) s
     | _ => s
     end).
Proof.
  intros Hc Hs Ho. unfold _store. rewrite Hc, Hs, Ho. simpl.
  unfold _store_to_stack, bind. rewrite find_existing_vars_run.
  destruct (existing_vars_of E self FunctionCatalog stmt s) as [| [v o] rest];
    reflexivity.
Qed.

Lemma load_unresolved_stack_offset E self ra size expr s :
  is_stack_address E (data ra) = true ->
  get_stack_offset E (data ra) = PNone ->
  _load E self ra size expr s = _load_pointer E self ra size s.
Proof. intros Hs Ho. unfold _load. rewrite Hs, Ho. reflexivity. Qed.

Lemma print_run po so mask s :
  unpack_potential_offset po = (so, mask) ->
  (match po with
   | PTuple _ _ => print mask
   | _ => ret tt
   end) s = (Ok tt, printed po s).
Proof. destruct po; intro H; inversion H; reflexivity. Qed.

Lemma load_stack_values_run E self co mask size s :
  load_stack_values E self co mask size s
  = (stack_values E self co mask size s, s).
Proof.
  unfold load_stack_values, stack_values.
  destruct (stack_addr_from_offset E co (Some mask)) as [a | []];
    reflexivity.
Qed.

Lemma load_all_vars_run E self values co size s :
  load_all_vars E self values co size s
  = (Ok (all_vars_of E self values co size s),
     all_vars_state E self values co size s).
Proof.
  unfold load_all_vars, all_vars_of, all_vars_state, found_on_stack.
  destruct (set_iter E match values with
                       | Some m => extract_all E m
                       | None => []
                       end) as [| p l]; reflexivity.
Qed.

Lemma load_typevar_run E var loc s :
  load_typevar E var loc s
  = (Ok (load_selected_typevar E s var loc), typevar_bound E var loc s).
Proof.
  unfold load_typevar, load_selected_typevar, typevar_bound, bind, gets.
  destruct (has_type_variable_for E (typevars s) var loc); reflexivity.
Qed.


(** The stack path of a load, step by step. *)
Lemma load_stack_run E self po size expr s :
  let so := fst (unpack_potential_offset po) in
  let mask := snd (unpack_potential_offset po) in
  let co := fst (split_stack_offset so) in
  let dyn := snd (split_stack_offset so) in
  let sp := printed po s in
  _load_stack E self po size expr s
  = match stack_values E self co mask size sp with
    | Raise e => (Raise e, sp)
    | Ok values =>
        let all_vars := all_vars_of E self values co size sp in
        let sv := all_vars_state E self values co size sp in
        match all_vars with
        | [] => (Raise UnboundLocalError, sv)
        | (var_offset, var) :: _ =>
            let s0 :=
              upd_vm_function
                (fun log => log ++
                   [EvReadFrom var (offset_into_variable dyn var_offset)
                               (_codeloc self) expr]) sv in
            let s1 := flushed var s0 in
            (Ok (RichR_ (annotate_with_variables E
                           (top E (size * byte_width (arch self))) all_vars)
                        (Some var)
                        (load_selected_typevar E s1 var (_codeloc self))),
             typevar_bound E var (_codeloc self) s1)
        end
    end.
Proof.
  cbv zeta. unfold _load_stack.
  destruct (unpack_potential_offset po) as [so mask] eqn:Hu. simpl fst.
  simpl snd.
  destruct (split_stack_offset so) as [co dyn] eqn:Hsp. simpl fst. simpl snd.
  unfold bind.
  rewrite (@print_run po so mask s Hu). rewrite load_stack_values_run.
  destruct (stack_values E self co mask size (printed po s)) as [values | e];
    [| reflexivity].
  rewrite load_all_vars_run.
  destruct (all_vars_of E self values co size (printed po s))
    as [| [var_offset var] rest]; [reflexivity |].
  rewrite vm_call_run, flush_delayed_run, load_typevar_run. reflexivity.
Qed.

Lemma printed_frame po s :
  stack_region (printed po s) = stack_region s /\
  typevars (printed po s) = typevars s /\
  typevar_counter (printed po s) = typevar_counter s /\
  state_type_constraints (printed po s) = state_type_constraints s /\
  delayed_type_constraints (printed po s) = delayed_type_constraints s.
Proof. destruct po; repeat split; reflexivity. Qed.


Lemma load_selected_typevar_ext E s s' var loc :
  typevars s' = typevars s -> typevar_counter s' = typevar_counter s ->
  load_selected_typevar E s' var loc = load_selected_typevar E s var loc.
Proof.
  intros Ht Hc. unfold load_selected_typevar. rewrite Ht, Hc. reflexivity.
Qed.







(** C4, as amended: for a stack-relative address that is not concrete, when
    the stack offset is not resolved at all ([get_stack_offset] gives
    [None]) a store is the store through an unknown pointer and a load is
    the load through a pointer, without an error; when the stack offset is an
    arithmetic expression, with or without an integer operand, a store does
    not fall back: it returns normally, having at most drawn an identifier
    for a stack variable, with no region written and no constraint added. *)
Theorem unresolved_stack_offset_fallback E self ra :
  is_stack_address E (data ra) = true ->
  concrete (data ra) = false ->
  (get_stack_offset E (data ra) = PNone ->
   (forall d size stmt s,
       _store E self ra d size stmt s
       = _store_to_variable self ra size stmt s) /\
   (forall size expr s,
       _load E self ra size expr s = _load_pointer E self ra size s)) /\
  (forall op a b,
      get_stack_offset E (data ra) = PArith op a b ->
      forall d size stmt s,
        _store E self ra d size stmt s
        = (Ok tt,
           match existing_vars_of E self FunctionCatalog stmt s with
           | [] => upd_vm_function
                     (fun log => log ++ [EvNextVariableIdent "stack"]) s
           | _ => s
           end)).
Proof.
  intros Hs Hc. split.
  - intro Ho. split.
    + intros. apply store_unresolved. split; [exact Hc | right; exact Ho].
    + intros. apply load_unresolved_stack_offset; assumption.
  - intros op a b Ho d size stmt s.
    apply store_symbolic_stack_offset with (op := op) (a := a) (b := b);
      assumption.
Qed.

(** A masked opaque address based on the stack base has no stack offset;
    the sum of the stack base and two registers has a symbolic one. *)
Lemma unresolved_stack_offset_fallback_witness :
  let unresolved :=
    RichR_ (mkValue (BinOp "__xor__" (BVS "stack_base" 64) (BVS "rdi" 64)) [])
           None (Some (TypeVariable 3)) in
  let symbolic :=
    RichR_ (mkValue (BinOp "__add__" (BVS "stack_base" 64)
                           (BinOp "__add__" (BVS "rdi" 64) (BVS "rsi" 64)))
                    [])
           None (Some (TypeVariable 3)) in
  let d := RichR_ (mkValue (BVV 1 32) []) None None in
  _store Sample.collab Sample.engine unresolved d 4 None Sample.empty_state
  = _store_to_variable Sample.engine unresolved 4 None Sample.empty_state /\
  _load Sample.collab Sample.engine unresolved 4 None Sample.empty_state
  = _load_pointer Sample.collab Sample.engine unresolved 4
                  Sample.empty_state /\
  _store Sample.collab Sample.engine symbolic d 4 None Sample.empty_state
  = (Ok tt,
     upd_vm_function (fun log => log ++ [EvNextVariableIdent "stack"])
                     Sample.empty_state).
Proof.
  intros unresolved symbolic d.
  destruct (@unresolved_stack_offset_fallback Sample.collab Sample.engine
              unresolved eq_refl eq_refl) as [H _].
  destruct (H eq_refl) as [Hst Hld].
  destruct (@unresolved_stack_offset_fallback Sample.collab Sample.engine
              symbolic eq_refl eq_refl) as [_ H'].
  split; [apply Hst | split; [apply Hld |]].
  apply (H' ArithAdd (PObj "rdi") (PObj "rsi") eq_refl d 4 None
            Sample.empty_state).
Defined.

(** C4, as stated, fails: with a stack offset [rdi + rsi], neither operand
    an integer, the store emits no constraint, while the store through an
    unknown pointer would emit the [Existence] of the derived [Store] type
    variable. *)
Lemma symbolic_stack_offset_store_no_fallback :
  let ra :=
    RichR_ (mkValue (BinOp "__add__" (BVS "stack_base" 64)
                           (BinOp "__add__" (BVS "rdi" 64) (BVS "rsi" 64)))
                    [])
           None (Some (TypeVariable 3)) in
  let d := RichR_ (mkValue (BVV 1 32) []) None None in
  let s := Sample.empty_state in
  get_stack_offset Sample.collab (data ra)
  = PArith ArithAdd (PObj "rdi") (PObj "rsi") /\
  emitted s (snd (_store Sample.collab Sample.engine ra d 4 None s)) = [] /\
  emitted s (snd (_store_to_variable Sample.engine ra 4 None s))
  = [Existence (DerivedTypeVariable
                  (DerivedTypeVariable (TypeVariable 3) Store)
                  (HasField 32 0))].
Proof. vm_compute. repeat split; reflexivity. Qed.

Lemma all_vars_of_not_nil E self values co size s :
  all_vars_of E self values co size s <> [].
Proof.
  unfold all_vars_of. destruct (found_on_stack E values); discriminate.
Qed.

(** With such an offset a load does not fall back either: it stays on the
    stack path with no concrete offset, and either the computation of the
    stack address raises or the load returns a RichR with a variable. *)
Lemma load_symbolic_stack_offset E self ra size expr s op a b :
  is_stack_address E (data ra) = true ->
  get_stack_offset E (data ra) = PArith op a b ->
  is_int a = false -> is_int b = false ->
  match fst (_load E self ra size expr s) with
  | Ok r => variable r <> None
  | Raise e => stack_addr_from_offset E PNone (Some PNone) = Raise e
  end.
Proof.
  intros Hs Ho Ha Hb. unfold _load. rewrite Hs, Ho. simpl.
  rewrite load_stack_run. cbv zeta. simpl. rewrite Ha, Hb. simpl.
  unfold stack_values.
  destruct (stack_addr_from_offset E PNone (Some PNone)) as [addr | e].
  - pose proof (@all_vars_of_not_nil E self
                  (region_load E (stack_region s) addr size
                     (Some (memory_endness (arch self))))
                  PNone size s) as Hne.
    destruct (all_vars_of E self _ PNone size s) as [| [vo var] rest];
      [contradiction | simpl; discriminate].
  - destruct e; simpl; try reflexivity.
    pose proof (@all_vars_of_not_nil E self None PNone size s) as Hne.
    destruct (all_vars_of E self None PNone size s) as [| [vo var] rest];
      [contradiction | simpl; discriminate].
Qed.

(** A 4-byte store of a constant to the absolute address 0x601000. *)
Lemma global_store_records_writes_witness :
  let d := RichR_ (mkValue (BVV 1 32) []) None None in
  let v := SimMemoryVariable 6295552 4 (Some "global_") in
  let written := mkValue (BVV 1 32) [(PInt 0, v)] in
  let s' := snd (_store_to_global Sample.collab Sample.engine 6295552 d 4
                   None Sample.empty_state) in
  global_endness Sample.engine None = Ok Iend_LE /\
  region_load Sample.collab
    [mkStoreCall (PInt 6295552) (SDValue written) (Some Iend_LE)]
    (PInt 6295552) 4 (Some Iend_LE)
  = Some [(0, [written])] /\
  global_region s'
  = [mkStoreCall (PInt 6295552) (SDValue written) (Some Iend_LE)] /\
  vm_global s'
  = [EvNextVariableIdent "global";
     EvSetVariable "global" (PInt 6295552) v;
     EvWriteTo v (PInt 0) (_codeloc Sample.engine) None].
Proof.
  intros d v written s'.
  split; [reflexivity | split; [reflexivity |]].
  pose proof (@global_store_records_writes Sample.collab Sample.engine
                6295552 d 4 None Sample.empty_state Iend_LE
                [(0, [written])] eq_refl eq_refl) as H.
  cbv zeta in H. destruct H as [H1 H2]. unfold s'. split.
  - rewrite H1. reflexivity.
  - rewrite H2. reflexivity.
Defined.

(** C5, as stated, fails: the value read back after a global store carries
    the variable of the store, and the event recorded for it is a write
    event; no read event is recorded in either catalog. *)
Lemma global_store_records_no_read :
  let d := RichR_ (mkValue (BVV 1 32) []) None None in
  let v := SimMemoryVariable 6295552 4 (Some "global_") in
  let s' := snd (_store_to_global Sample.collab Sample.engine 6295552 d 4
                   None Sample.empty_state) in
  region_load Sample.collab (global_region s') (PInt 6295552) 4
              (Some Iend_LE)
  = Some [(0, [mkValue (BVV 1 32) [(PInt 0, v)]])] /\
  filter is_read_event (vm_global s' ++ vm_function s') = [] /\
  filter is_write_event (vm_global s')
  = [EvWriteTo v (PInt 0) (_codeloc Sample.engine) None].
Proof. vm_compute. repeat split; reflexivity. Qed.



(** * Further properties of the engine *)

(** ** Loads through a pointer *)

Lemma load_pointer_run E self ra size s :
  _load_pointer E self ra size s
  = (Ok (RichR_ (top E (size * byte_width (arch self))) None
                (pointer_typevar self ra size)),
     upd_type_constraints
       (fun l => l ++ riding_constraints ra ++ pointer_existence self ra size)
       s).
Proof.
  unfold _load_pointer, bind. rewrite add_riding_constraints_run.
  unfold pointer_existence, pointer_typevar, derived_field.
  destruct (typevar ra) as [[idx | base [n | | | bits off] | bits] |];
    simpl; unfold ret, add_type_constraint, modify; simpl;
    unfold upd_type_constraints; simpl; rewrite <- ?app_assoc;
    rewrite ?app_nil_r; reflexivity.
Qed.

(** X2: a load through an address that is neither a stack address nor
    concrete returns a top value of the load's width with no variable, adds
    the constraints the address carries and, only when the address has a type
    variable, the [Existence] of the derived [Load] field, which is then the
    type variable returned; an address without a type variable gets none
    (a store draws a fresh one there), and nothing else in the state
    changes. *)
Theorem load_opaque_pointer E self ra size expr s :
  is_stack_address E (data ra) = false ->
  concrete (data ra) = false ->
  _load E self ra size expr s
  = (Ok (RichR_ (top E (size * byte_width (arch self))) None
                (pointer_typevar self ra size)),
     upd_type_constraints
       (fun l => l ++ riding_constraints ra ++ pointer_existence self ra size)
       s).
Proof.
  intros Hs Hc. unfold _load. rewrite Hs, Hc. apply load_pointer_run.
Qed.

(** ** The entry point and the other exceptions *)

(** X9: [process] hands on a normal return and every exception that is
    not a [SimEngineError] unchanged, and it swallows a [SimEngineError]
    whenever [fail_fast] is given but is not the Boolean [True] (the test is
    [is True]): a [fail_fast=1] does not fail fast. *)
Theorem process_other_outcomes super_process kwargs s :
  (forall s', super_process (kw_block kwargs) s = (Ok tt, s') ->
              process super_process kwargs s = (Ok tt, s')) /\
  (forall e s', super_process (kw_block kwargs) s = (Raise e, s') ->
                (forall msg, e <> SimEngineError msg) ->
                process super_process kwargs s = (Raise e, s')) /\
  (forall msg s' v,
      super_process (kw_block kwargs) s = (Raise (SimEngineError msg), s') ->
      kw_fail_fast kwargs = Some v -> v <> KwBool true ->
      process super_process kwargs s = (Ok tt, s')).
Proof.
  unfold process, _process. repeat split.
  - intros s' ->. reflexivity.
  - intros e s' -> Hne. destruct e; try reflexivity.
    exfalso. eapply Hne. reflexivity.
  - intros msg s' v -> -> Hv.
    destruct v as [[|] | n |]; try reflexivity. contradiction.
Qed.

Ltac unfold_engine :=
  unfold _assign_to_register, _reference, reference_at_all, _store,
    _store_to_global, _store_to_stack, _store_to_variable,
    store_type_constraints, find_existing_vars, add_riding_constraints,
    _load, _load_stack, _load_global, _load_pointer, load_stack_values,
    load_all_vars, load_typevar, flush_delayed, _read_from_register,
    register_typevar.

(** ** The delayed table only loses entries *)

Lemma shrinks_refl s : shrinks s s.
Proof. intros v cs H. exact H. Qed.

Lemma shrinks_trans s1 s2 s3 : shrinks s1 s2 -> shrinks s2 s3 -> shrinks s1 s3.
Proof. intros H12 H23 v cs H. apply H12, H23, H. Qed.

Lemma delayed_lookup_pop_other d v w cs :
  delayed_lookup (delayed_pop d v) w = Some cs ->
  delayed_lookup d w = Some cs.
Proof.
  induction d as [| [k ks] d IH]; simpl; [discriminate |].
  destruct (SimVariable_eq_dec k v) as [-> | Hkv].
  - intro H. specialize (IH H).
    destruct (SimVariable_eq_dec v w) as [-> | Hvw]; [| exact IH].
    rewrite delayed_lookup_pop in H. discriminate.
  - simpl. destruct (SimVariable_eq_dec k w); [tauto | exact IH].
Qed.

Lemma shrinks_pop v :
  pres shrinks (modify (upd_delayed (fun d => delayed_pop d v))).
Proof.
  apply pres_modify. intros s w cs H. simpl in H.
  eapply delayed_lookup_pop_other. exact H.
Qed.

Ltac shrinks_tac :=
  repeat first
    [ apply shrinks_pop
    | match goal with
      | |- pres shrinks (bind _ _) =>
          apply pres_bind; [apply shrinks_trans | | intros]
      | |- pres shrinks (ret _) => apply pres_ret, shrinks_refl
      | |- pres shrinks (raise _) => apply pres_raise, shrinks_refl
      | |- pres shrinks (lift _) => apply pres_lift, shrinks_refl
      | |- pres shrinks (gets _) => apply pres_gets, shrinks_refl
      | |- pres shrinks (for_ _ _) =>
          apply pres_for; [apply shrinks_refl | apply shrinks_trans | intros]
      | |- pres shrinks (when _ _) =>
          apply pres_when; [apply shrinks_refl |]
      | |- pres shrinks (match ?x with _ => _ end) => destruct x
      | |- pres shrinks _ =>
          solve [let H := fresh in intros ? ? ? H; exact H]
      end ].

(** X8: no operation adds an entry to the delayed-constraints table or
    changes one: every entry there after an operation was there, with the
    same constraints, before it. *)
Theorem delayed_table_only_shrinks E self :
  (forall r loc src, pres shrinks (_reference E self r loc src)) /\
  (forall offset r size src dst,
      pres shrinks (_assign_to_register E self offset r size src dst)) /\
  (forall ra d size stmt, pres shrinks (_store E self ra d size stmt)) /\
  (forall ra size expr, pres shrinks (_load E self ra size expr)) /\
  (forall offset size expr,
      pres shrinks (_read_from_register E self offset size expr)).
Proof.
  repeat split; intros; do 3 (unfold_engine; shrinks_tac).
Qed.

(** ** Stores *)

Lemma normalized_write_events_run self c stmt found s :
  for_ found (fun '(var_offset, var) =>
    vm_call c (EvWriteTo var (zero_to_None var_offset) (_codeloc self) stmt)) s
  = (Ok tt,
     upd_vm c (fun log => log ++ normalized_write_events self stmt found) s).
Proof.
  unfold normalized_write_events. apply for_vm_call. intros [o v].
  reflexivity.
Qed.

Lemma store_type_constraints_ok E d v loc s :
  fst (store_type_constraints E d v loc s) = Ok tt.
Proof.
  unfold store_type_constraints, bind, gets.
  destruct (typevar d) as [dtv |]; [| reflexivity].
  destruct (has_type_variable_for E (typevars s) v loc); simpl.
  - destruct (get_type_variable E (typevars s) v loc); reflexivity.
  - reflexivity.
Qed.

Lemma stack_store_run E self n d size stmt endness s addr :
  stack_addr_from_offset E (PInt n) None = Ok addr ->
  let call := stack_store_call E self (PInt n) addr size d stmt endness s in
  let readback :=
    region_load E (stack_region s ++ [call]) addr size endness in
  let run := _store_to_stack E self (PInt n) d size stmt endness s in
  fst run = Ok tt /\
  stack_region (snd run) = stack_region s ++ [call] /\
  vm_function (snd run)
  = vm_function s ++ stack_creation E self (PInt n) size stmt s ++
    normalized_write_events self stmt (found_on_stack E readback).
Proof.
  intros Haddr. cbv zeta.
  remember (_store_to_stack E self (PInt n) d size stmt endness s) as run
    eqn:Hrun.
  unfold _store_to_stack, bind in Hrun.
  rewrite find_existing_vars_run in Hrun.
  unfold stack_store_call, stack_creation, found_on_stack.
  unfold stack_variable, stack_variable_offset.
  assert (Hs : forall v loc,
             pres (same stack_region) (store_type_constraints E d v loc))
    by (intros; apply store_type_constraints_frame).
  assert (Hv : forall v loc,
             pres (same vm_function) (store_type_constraints E d v loc))
    by (intros; apply store_type_constraints_frame).
  destruct (existing_vars_of E self FunctionCatalog stmt s)
    as [| [v o] rest].
  - unfold vm_next_variable_ident in Hrun. simpl when in Hrun.
    rewrite vm_call_run in Hrun. unfold ret at 1 in Hrun.
    simpl is_int in Hrun. cbv iota in Hrun.
    unfold lift in Hrun. rewrite Haddr in Hrun.
    unfold region_store, modify, region_load_opt, gets in Hrun.
    simpl in Hrun.
    rewrite normalized_write_events_run in Hrun.
    match type of Hrun with
    | _ = store_type_constraints E d ?v ?loc ?s0 =>
        specialize (Hs v loc s0); specialize (Hv v loc s0);
        pose proof (store_type_constraints_ok E d v loc s0) as Hok;
        destruct (store_type_constraints E d v loc s0) as [o1 s1]
    end.
    subst run. unfold same in *. simpl in *. rewrite Hs, Hv.
    rewrite <- !app_assoc. auto.
  - unfold ret at 1 in Hrun. simpl is_int in Hrun. cbv iota in Hrun.
    unfold lift in Hrun. rewrite Haddr in Hrun.
    unfold region_store, modify, region_load_opt, gets in Hrun.
    simpl in Hrun.
    rewrite normalized_write_events_run in Hrun.
    match type of Hrun with
    | _ = store_type_constraints E d ?v ?loc ?s0 =>
        specialize (Hs v loc s0); specialize (Hv v loc s0);
        pose proof (store_type_constraints_ok E d v loc s0) as Hok;
        destruct (store_type_constraints E d v loc s0) as [o1 s1]
    end.
    subst run. unfold same in *. simpl in *. rewrite Hs, Hv. auto.
Qed.

(** X1: when the read-back of a global store is missing, the store raises
    [SimMemoryMissingError]: the error is not caught there.  The value has
    been written and the variable registered by then; no write event is
    recorded, no type variable bound, no constraint emitted. *)
Theorem global_store_missing_readback E self addr d size stmt s e :
  global_endness self stmt = Ok e ->
  region_load E
    (global_region s ++ [global_store_call E self addr size d stmt e s])
    (PInt addr) size (Some e) = None ->
  let run := _store_to_global E self addr d size stmt s in
  fst run = Raise SimMemoryMissingError /\
  global_region (snd run)
  = global_region s ++ [global_store_call E self addr size d stmt e s] /\
  vm_global (snd run)
  = vm_global s ++ global_creation E self addr size stmt s /\
  typevars (snd run) = typevars s /\
  emitted s (snd run) = [].
Proof.
  intros He Hload. cbv zeta.
  remember (_store_to_global E self addr d size stmt s) as run eqn:Hrun.
  unfold _store_to_global, bind in Hrun.
  unfold global_store_call, global_creation in *.
  unfold global_variable in *.
  rewrite find_existing_vars_run in Hrun.
  destruct (existing_vars_of E self GlobalCatalog stmt s) as [| [v o] rest].
  - unfold vm_next_variable_ident in Hrun. rewrite vm_call_run in Hrun.
    unfold ret at 1 in Hrun. unfold lift in Hrun. rewrite He in Hrun.
    unfold region_store, modify, region_load_opt, gets in Hrun.
    simpl in Hrun. simpl in Hload. rewrite Hload in Hrun.
    subst run. simpl. rewrite <- app_assoc. repeat split.
    apply emitted_app. rewrite app_nil_r. reflexivity.
  - unfold ret at 1 in Hrun. unfold lift in Hrun. rewrite He in Hrun.
    unfold region_store, modify, region_load_opt, gets in Hrun.
    simpl in Hrun. simpl in Hload. rewrite Hload in Hrun.
    subst run. simpl. rewrite app_nil_r. repeat split.
    apply emitted_app. rewrite app_nil_r. reflexivity.
Qed.

(** ** Loads from the stack *)

Lemma printed_vm_function po s : vm_function (printed po s) = vm_function s.
Proof. destruct po; reflexivity. Qed.

Lemma stack_values_printed E self co mask size po s :
  stack_values E self co mask size (printed po s)
  = stack_values E self co mask size s.
Proof.
  unfold stack_values. destruct (printed_frame po s) as (Hs & _).
  rewrite Hs. reflexivity.
Qed.

(** X3: a stack load that finds no variable on the stack (the load is
    missing, or the values carry none) creates a stack variable of the
    load's size at the concrete offset, stores a top value annotated with it
    in the stack region under the concrete offset itself as key, registers
    it, records one read of it and returns it with its type variable. *)
Theorem stack_load_fresh_slot E self ra size expr s values :
  is_stack_address E (data ra) = true ->
  let po := get_stack_offset E (data ra) in
  let so := fst (unpack_potential_offset po) in
  let mask := snd (unpack_potential_offset po) in
  let co := fst (split_stack_offset so) in
  let dyn := snd (split_stack_offset so) in
  is_None po = false ->
  stack_values E self co mask size s = Ok values ->
  found_on_stack E values = [] ->
  let v := new_stack_variable E self co size s in
  let held :=
    annotate_with_variables E (top E (size * byte_width (arch self)))
                            [(PInt 0, v)] in
  let run := _load E self ra size expr s in
  fst run = Ok (RichR_ held (Some v)
                       (load_selected_typevar E s v (_codeloc self))) /\
  stack_region (snd run)
  = stack_region s ++
    [mkStoreCall co (SDValue held) (Some (memory_endness (arch self)))] /\
  vm_function (snd run)
  = vm_function s ++
    [EvNextVariableIdent "stack"; EvAddVariable "stack" co v;
     EvReadFrom v (offset_into_variable dyn (PInt 0)) (_codeloc self) expr].
Proof.
  intros Hs po so mask co dyn Hn Hv Hf v held run. subst run v held.
  unfold _load. rewrite Hs. fold po. rewrite Hn.
  change (negb false) with true. cbv iota.
  rewrite load_stack_run. cbv zeta. fold so mask co dyn.
  rewrite stack_values_printed, Hv.
  unfold all_vars_of, all_vars_state, new_stack_variable. rewrite Hf.
  rewrite printed_vm_function.
  destruct (printed_frame po s) as (Hpr & Hpt & Hpc & _).
  set (s0 := upd_vm_function _ (upd_vm_function _ _)).
  destruct (flushed_frame (SimStackVariable co size "bp"
                             (next_variable_ident E (vm_function s) "stack")
                             (func_addr self)) s0)
    as (Hfs & _ & _ & Ht & Hfv & _ & Hc).
  assert (Ht' : typevars (flushed (SimStackVariable co size "bp"
                             (next_variable_ident E (vm_function s) "stack")
                             (func_addr self)) s0) = typevars s)
    by (rewrite Ht; exact Hpt).
  assert (Hc' : typevar_counter
                  (flushed (SimStackVariable co size "bp"
                             (next_variable_ident E (vm_function s) "stack")
                             (func_addr self)) s0) = typevar_counter s)
    by (rewrite Hc; exact Hpc).
  split; [| split].
  - simpl fst.
    rewrite (@load_selected_typevar_ext E s _ _ (_codeloc self) Ht' Hc').
    reflexivity.
  - simpl snd. unfold typevar_bound.
    destruct (has_type_variable_for E _ _ _); simpl; rewrite Hfs; simpl;
      rewrite Hpr; reflexivity.
  - simpl snd. unfold typevar_bound.
    destruct (has_type_variable_for E _ _ _); simpl; rewrite Hfv; simpl;
      rewrite printed_vm_function, <- !app_assoc; reflexivity.
Qed.

(** X4: the split of a symbolic stack offset looks at the operands only:
    two stack addresses whose offsets have the same operands, one of them an
    integer, load alike whatever the operators are. *)
Theorem load_ignores_operator E self ra ra' op op' a b size expr s :
  is_stack_address E (data ra) = true ->
  is_stack_address E (data ra') = true ->
  get_stack_offset E (data ra) = PArith op a b ->
  get_stack_offset E (data ra') = PArith op' a b ->
  is_int a || is_int b = true ->
  _load E self ra size expr s = _load E self ra' size expr s.
Proof.
  intros Hs Hs' Ho Ho' Hint. unfold _load. rewrite Hs, Hs', Ho, Ho'.
  simpl. unfold _load_stack. simpl.
  destruct (is_int a); [reflexivity |].
  destruct (is_int b); [reflexivity | discriminate].
Qed.

(** ** Registers *)






(** ** Address-taken references *)

(** X6: taking the address of a stack slot at an integer offset, the
    statement having no variable and the 1-byte probe being missing, creates
    a 1-byte stack variable, stores a top placeholder of one byte annotated
    with it at the stack address, binds the type variable of the value (or a
    fresh one) to it and records one reference whose offset is the stack
    offset itself, [None] only when that is 0. *)
Theorem reference_fresh_slot E self r loc src s n addr :
  is_stack_address E (data r) = true ->
  get_stack_offset E (data r) = PInt n ->
  find_variables_by_stmt E (vm_function s) (block_addr self) (stmt_idx self)
                         "memory" = [] ->
  stack_addr_from_offset E (PInt n) None = Ok addr ->
  region_load E (stack_region s) addr 1 None = None ->
  let v := referenced_variable E self (PInt n) s in
  let placeholder :=
    annotate_with_variables E (top E (byte_width (arch self)))
                            [(PInt 0, v)] in
  let run := _reference E self r loc src s in
  fst run = Ok tt /\
  stack_region (snd run)
  = stack_region s ++ [mkStoreCall addr (SDMulti [(0, [placeholder])]) None] /\
  vm_function (snd run)
  = vm_function s ++
    [EvNextVariableIdent "stack"; EvAddVariable "stack" (PInt n) v;
     EvReferenceAt v (zero_to_None (PInt n)) loc src] /\
  typevars (snd run) = typevars s ++ [(Some v, loc, address_typevar r s)].
Proof.
  intros Hs Ho Hfind Haddr Hload. cbv zeta.
  unfold referenced_variable, address_typevar.
  remember (_reference E self r loc src s) as run eqn:Hrun.
  unfold _reference, bind, gets in Hrun. rewrite Hs, Ho, Hfind in Hrun.
  cbn [is_None hd_error option_map] in Hrun. unfold lift in Hrun.
  rewrite Haddr in Hrun. unfold region_load_opt, gets in Hrun.
  cbn [get_region] in Hrun. rewrite Hload in Hrun.
  cbn [app] in Hrun. unfold vm_next_variable_ident in Hrun.
  rewrite vm_call_run in Hrun. unfold ret at 1 in Hrun.
  unfold region_store, modify in Hrun. unfold ret at 1 in Hrun.
  unfold reference_at_all, for_, bind, lift, py_sub in Hrun.
  destruct (typevar r) as [tv |]; subst run; simpl;
    rewrite Z.sub_0_r, <- ?app_assoc; auto.
Qed.

(** ** A stack store followed by a load of the same slot *)

Lemma set_iter_singleton E x : exists rest, set_iter E [x] = x :: rest.
Proof.
  destruct (set_iter E [x]) as [| y rest] eqn:H.
  - exfalso. assert (Hin : In x (set_iter E [x]))
      by (apply set_iter_In; left; reflexivity).
    rewrite H in Hin. exact Hin.
  - exists rest. f_equal.
    assert (Hin : In y [x])
      by (apply (set_iter_In E); rewrite H; left; reflexivity).
    destruct Hin as [Hx | []]. symmetry. exact Hx.
Qed.

(** X7: a stack store at an integer offset followed by a load at the same
    offset returns a top value annotated with the variable of the store, as
    the RichR's variable too, provided the two computations of the stack
    address agree, the stack region gives back the cell just stored and the
    annotation is found again on the value. *)
Theorem stack_store_then_load E self n d size stmt endness ra expr s addr :
  stack_addr_from_offset E (PInt n) None = Ok addr ->
  stack_addr_from_offset E (PInt n) (Some PNone) = Ok addr ->
  is_stack_address E (data ra) = true ->
  get_stack_offset E (data ra) = PInt n ->
  let call := stack_store_call E self (PInt n) addr size d stmt endness s in
  let v := stack_variable E self (PInt n) size stmt s in
  let off := stack_variable_offset E self stmt s in
  let written := annotate_with_variables E (data d) [(off, v)] in
  region_load E (stack_region s ++ [call]) addr size
              (Some (memory_endness (arch self)))
  = Some [(0, [written])] ->
  extract_variables E written = [(off, v)] ->
  exists tv,
    fst ((_store_to_stack E self (PInt n) d size stmt endness ;;;
          _load E self ra size expr) s)
    = Ok (RichR_ (annotate_with_variables E
                    (top E (size * byte_width (arch self)))
                    (set_iter E [(off, v)]))
                 (Some v) tv).
Proof.
  intros Haddr Haddr' Hs Ho call v off written Hload Hx.
  destruct (@stack_store_run E self n d size stmt endness s addr Haddr)
    as (Hok & Hreg & _).
  fold call in Hreg. unfold bind.
  destruct (_store_to_stack E self (PInt n) d size stmt endness s)
    as [[[] | e] s1]; simpl in Hok, Hreg; [| discriminate].
  unfold _load. rewrite Hs, Ho. cbn [is_None negb].
  rewrite load_stack_run. cbv zeta.
  cbn [unpack_potential_offset split_stack_offset fst snd printed].
  unfold stack_values. rewrite Haddr', Hreg, Hload.
  unfold all_vars_of, all_vars_state, found_on_stack, extract_all.
  cbn [mv_values map snd flat_map]. rewrite Hx. cbn [app].
  destruct (set_iter_singleton E (off, v)) as [rest Hset]. rewrite Hset.
  cbn [fst]. eexists. reflexivity.
Qed.

(** ** The properties above on the sample engine *)

Lemma load_opaque_pointer_witness :
  _load Sample.collab Sample.engine Sample.typed_pointer 4 None Sample.empty_state
  = (Ok (RichR_ (mkValue (BVS "top" 32) []) None
                (Some (DerivedTypeVariable
                         (DerivedTypeVariable (TypeVariable 3) Load)
                         (HasField 32 8)))),
     upd_type_constraints
       (fun l => l ++
          [Existence (DerivedTypeVariable
                        (DerivedTypeVariable (TypeVariable 3) Load)
                        (HasField 32 8))])
       Sample.empty_state).
Proof.
  exact (@load_opaque_pointer Sample.collab Sample.engine Sample.typed_pointer 4
           None Sample.empty_state eq_refl eq_refl).
Defined.

Lemma process_other_outcomes_witness :
  process (fun _ => ret tt) (mkKwargs None None) Sample.empty_state
  = (Ok tt, Sample.empty_state) /\
  process (fun _ => raise StopIteration) (mkKwargs None None)
          Sample.empty_state
  = (Raise StopIteration, Sample.empty_state) /\
  process (fun _ => raise (SimEngineError "fault"))
          (mkKwargs None (Some (KwInt 1))) Sample.empty_state
  = (Ok tt, Sample.empty_state).
Proof.
  split; [| split].
  - apply (proj1 (@process_other_outcomes (fun _ => ret tt)
                    (mkKwargs None None) Sample.empty_state)).
    reflexivity.
  - apply (proj1 (proj2 (@process_other_outcomes
                           (fun _ => raise StopIteration)
                           (mkKwargs None None) Sample.empty_state))).
    + reflexivity.
    + discriminate.
  - apply (proj2 (proj2 (@process_other_outcomes
                           (fun _ => raise (SimEngineError "fault"))
                           (mkKwargs None (Some (KwInt 1)))
                           Sample.empty_state))
             "fault" Sample.empty_state (KwInt 1)).
    + reflexivity.
    + reflexivity.
    + discriminate.
Defined.

Lemma global_store_missing_readback_witness :
  let run := _store_to_global Sample.forgetful Sample.engine 6295552
               Sample.typed_constant 4 None Sample.empty_state in
  let var := SimMemoryVariable 6295552 4 (Some "global_") in
  let written := mkValue (BVV 1 32) [(PInt 0, var)] in
  fst run = Raise SimMemoryMissingError /\
  global_region (snd run)
  = [mkStoreCall (PInt 6295552) (SDValue written) (Some Iend_LE)] /\
  vm_global (snd run)
  = [EvNextVariableIdent "global"; EvSetVariable "global" (PInt 6295552) var]
  /\ typevars (snd run) = [] /\
  emitted Sample.empty_state (snd run) = [].
Proof.
  exact (@global_store_missing_readback Sample.forgetful Sample.engine 6295552
           Sample.typed_constant 4 None Sample.empty_state Iend_LE
           eq_refl eq_refl).
Defined.

Lemma stack_load_fresh_slot_witness :
  let run := _load Sample.collab Sample.engine Sample.slot_address 8 None
                   Sample.empty_state in
  let v := SimStackVariable (PInt (-16)) 8 "bp" "stack_" (Some 4198400) in
  let held := mkValue (BVS "top" 64) [(PInt 0, v)] in
  fst run = Ok (RichR_ held (Some v) (Some (TypeVariable 100))) /\
  stack_region (snd run)
  = [mkStoreCall (PInt (-16)) (SDValue held) (Some Iend_LE)] /\
  vm_function (snd run)
  = [EvNextVariableIdent "stack"; EvAddVariable "stack" (PInt (-16)) v;
     EvReadFrom v PNone (_codeloc Sample.engine) None].
Proof.
  exact (@stack_load_fresh_slot Sample.collab Sample.engine Sample.slot_address 8
           None Sample.empty_state None eq_refl eq_refl eq_refl eq_refl).
Defined.

Lemma load_ignores_operator_witness :
  let base := BVS "stack_base" 64 in
  let plus :=
    RichR_ (mkValue (BinOp "__add__" base
                           (BinOp "__add__" (BVV 8 64) (BVS "rdi" 64))) [])
           None None in
  let minus :=
    RichR_ (mkValue (BinOp "__add__" base
                           (BinOp "__sub__" (BVV 8 64) (BVS "rdi" 64))) [])
           None None in
  get_stack_offset Sample.collab (data plus)
  = PArith ArithAdd (PInt 8) (PObj "rdi") /\
  get_stack_offset Sample.collab (data minus)
  = PArith ArithSub (PInt 8) (PObj "rdi") /\
  _load Sample.collab Sample.engine plus 8 None Sample.empty_state
  = _load Sample.collab Sample.engine minus 8 None Sample.empty_state.
Proof.
  intros base plus minus.
  split; [reflexivity | split; [reflexivity |]].
  exact (@load_ignores_operator Sample.collab Sample.engine plus minus
           ArithAdd ArithSub (PInt 8) (PObj "rdi") 8 None Sample.empty_state
           eq_refl eq_refl eq_refl eq_refl eq_refl).
Defined.


Lemma reference_fresh_slot_witness :
  let run := _reference Sample.collab Sample.engine Sample.slot_address
               (_codeloc Sample.engine) None Sample.empty_state in
  let v := SimStackVariable (PInt (-16)) 1 "bp" "stack_" (Some 4198400) in
  let placeholder := mkValue (BVS "top" 8) [(PInt 0, v)] in
  fst run = Ok tt /\
  stack_region (snd run)
  = [mkStoreCall Sample.slot (SDMulti [(0, [placeholder])]) None] /\
  vm_function (snd run)
  = [EvNextVariableIdent "stack"; EvAddVariable "stack" (PInt (-16)) v;
     EvReferenceAt v (PInt (-16)) (_codeloc Sample.engine) None] /\
  typevars (snd run)
  = [(Some v, _codeloc Sample.engine, TypeVariable 100)].
Proof.
  exact (@reference_fresh_slot Sample.collab Sample.engine Sample.slot_address
           (_codeloc Sample.engine) None Sample.empty_state (-16) Sample.slot
           eq_refl eq_refl eq_refl eq_refl eq_refl).
Defined.

Lemma stack_store_then_load_witness :
  let written := mkValue (BVS "top" 32) [(PInt 0, Sample.slot_variable)] in
  exists tv,
    fst ((_store_to_stack Sample.collab Sample.engine (PInt (-16))
            Sample.typed_constant 4 None (Some Iend_LE) ;;;
          _load Sample.collab Sample.engine Sample.slot_address 4 None)
           Sample.empty_state)
    = Ok (RichR_ written (Some Sample.slot_variable) tv).
Proof.
  exact (@stack_store_then_load Sample.collab Sample.engine (-16)
           Sample.typed_constant 4 None (Some Iend_LE) Sample.slot_address None
           Sample.empty_state Sample.slot eq_refl eq_refl eq_refl eq_refl
           eq_refl eq_refl).
Defined.
